(** * ASCII art generator: a shallow embedding of [ascii_art.c]

    The program forks painter processes that draw random discs on a canvas
    kept in a System V shared-memory segment, while the parent prints the
    canvas a few times, terminates one painter and reaps them all.

    The development has three layers.
    - The canvas layer: the loops of [clear_canvas], [print_canvas] and
      [draw_random_shape] as functions on a grid of characters.
    - The process layer: one process of the program as a computation over a
      [World] holding what the C code reads from its environment (clock,
      random source, results of [fork], [shmget], [wait]) and what it
      leaves behind (its view of the shared canvas and a trace of output
      and system calls).
    - The cell layer: a disc drawing and a canvas print as sequences of
      single-cell accesses, and their interleavings. *)

From Stdlib Require Import ZArith Reals Lia Ascii String.
From stdpp Require Import base list pretty.

Local Open Scope Z_scope.

(** ** Machine integers *)

(** [int] is 32 bits wide, two's complement; the wrap-around is written out. *)
Definition INT_MAX : Z := 2147483647.

Definition int_wrap (z : Z) : Z := (z + 2 ^ 31) mod 2 ^ 32 - 2 ^ 31.

Definition int_add (a b : Z) : Z := int_wrap (a + b).
Definition int_sub (a b : Z) : Z := int_wrap (a - b).
Definition int_mul (a b : Z) : Z := int_wrap (a * b).

(** Conversions to [unsigned int] (the argument of [srand]) and to
    [unsigned long] (the type of [sizeof]). *)
Definition to_uint (z : Z) : Z := z mod 2 ^ 32.
Definition to_ulong (z : Z) : Z := z mod 2 ^ 64.

(** A [for (int i = 0; i < n; i++)] loop threading a state. *)
Fixpoint for_upto {St : Type} (n : nat) (body : nat -> St -> St) (s : St) : St :=
  match n with
  | O => s
  | S k => body k (for_upto k body s)
  end.

(** ** The canvas *)

(** [#define ART_WIDTH 50], [#define ART_HEIGHT 15], [#define MAX_WORKERS 2] *)
Definition ART_WIDTH : nat := 50.
Definition ART_HEIGHT : nat := 15.
Definition MAX_WORKERS : nat := 2.

(** [char canvas[ART_HEIGHT][ART_WIDTH]]: a list of rows. *)
Abbreviation canvas := (list (list ascii)).

(** The array type fixes the dimensions. *)
Definition canvas_wf (c : canvas) : Prop :=
  length c = ART_HEIGHT /\ Forall (fun row => length row = ART_WIDTH) c.

Definition canvas_wfb (c : canvas) : bool :=
  (length c =? ART_HEIGHT)%nat && forallb (fun row => (length row =? ART_WIDTH)%nat) c.

(** [canvas[y][x]] as an optional read, and as the character read. *)
Definition cell (c : canvas) (y x : nat) : option ascii :=
  c !! y ≫= (fun row => row !! x).

Definition canvas_at (c : canvas) (y x : nat) : ascii :=
  default "000"%char (cell c y x).

(** [canvas[y][x] = v] *)
Definition set_cell (c : canvas) (y x : nat) (v : ascii) : canvas :=
  alter (<[x := v]>) y c.

Definition blank : ascii := " "%char.

(** [clear_canvas], lines 30-36. *)
Definition clear_canvas (c : canvas) : canvas :=
  for_upto ART_HEIGHT (fun y c =>
    for_upto ART_WIDTH (fun x c => set_cell c y x blank) c) c.

Definition newline : string := String "010"%char EmptyString.

Definition putchar (ch : ascii) (out : string) : string :=
  out +:+ String ch EmptyString.

(** [print_canvas], lines 39-48: the characters written to the standard
    output. *)
Definition print_canvas (c : canvas) : string :=
  let out := newline +:+ "====== ASCII ART ======" +:+ newline in
  let out :=
    for_upto ART_HEIGHT (fun y out =>
      let out := for_upto ART_WIDTH (fun x out => putchar (canvas_at c y x) out) out in
      putchar "010"%char out) out in
  out +:+ "======================" +:+ newline +:+ newline.

(** ** Shapes *)

(** The locals [center_x], [center_y], [radius], [color] of
    [draw_random_shape]. *)
Record Shape : Type := mkShape {
  center_x : Z;
  center_y : Z;
  radius : Z;
  color : ascii
}.

(** The test of line 66, [dx*dx + dy*dy <= radius*radius], in [int]
    arithmetic. *)
Definition in_radius (s : Shape) (y x : nat) : bool :=
  let dx := int_sub (Z.of_nat x) (center_x s) in
  let dy := int_sub (Z.of_nat y) (center_y s) in
  int_add (int_mul dx dx) (int_mul dy dy) <=? int_mul (radius s) (radius s).

(** The drawing loop of [draw_random_shape], lines 62-70. *)
Definition apply_shape (s : Shape) (c : canvas) : canvas :=
  for_upto ART_HEIGHT (fun y c =>
    for_upto ART_WIDTH (fun x c =>
      if in_radius s y x then set_cell c y x (color s) else c) c) c.

(** [char colors[]], line 51. *)
Definition colors : list ascii :=
  ["@"; ")"; "*"; "+"; "."; "$"; "("; "0"; "&"; "%"]%char.

(** [colors[i]]; the default stands for a read past the array. *)
Definition colors_at (i : Z) : ascii := nth (Z.to_nat i) colors "000"%char.

(** ** The random source *)

(** [srand] and [rand] of the C library: [rand] returns an [int] between 0
    and [RAND_MAX], and [RAND_MAX] is at most [INT_MAX]. *)
Class RandSource : Type := {
  rng : Type;
  srand : Z -> rng;
  rand : rng -> Z * rng;
  rand_range : forall g : rng, 0 <= fst (rand g) <= INT_MAX
}.

(** The sample generator of the C standard (7.22.2.2), with
    [RAND_MAX = 32767]. *)
Definition lcg_rand (next : Z) : Z * Z :=
  let next := (next * 1103515245 + 12345) mod 2 ^ 32 in
  ((next / 65536) mod 32768, next).

#[export] Instance lcg_source : RandSource.
Proof.
  refine {| rng := Z; srand := to_uint; rand := lcg_rand; rand_range := _ |}.
  abstract (
    intros g; unfold lcg_rand, INT_MAX; simpl fst;
    pose proof (Z.mod_pos_bound ((g * 1103515245 + 12345) mod 2 ^ 32 / 65536) 32768);
    lia).
Defined.

(** ** The process layer *)

(** What a process writes and which system calls it makes, in order. *)
Inductive event : Type :=
| Stdout (text : string)
| Perror (msg : string)
| Execv (path : string) (args : list string)
| Kill (pid : Z) (sig : Z)
| Wait
| Sleep (secs : Z)
| Usleep (usecs : Z)
| Shmdt
| Shmctl_rmid (shmid : Z).

Definition SIGTERM : Z := 15.

Section Process.

Context `{RandSource}.

(** The state of one process and of its environment.  [shared_memory] is
    the canvas behind the global pointer, [None] while the pointer does not
    address an attached segment.  The lists hold the answers the
    environment gives to the coming calls of [clock_gettime], [fork] and
    [wait].  The canvas is this process's view: writes of other processes
    to the segment are not part of its state. *)
Record World : Type := mkWorld {
  w_time : Z;
  w_nsecs : list Z;
  w_rng : rng;
  w_forks : list Z;
  w_execv_ok : bool;
  w_shmget : Z;
  w_waits : list (Z * Z);
  shared_memory : option canvas;
  w_trace : list event
}.

Definition set_time (t : Z) (w : World) : World :=
  mkWorld t (w_nsecs w) (w_rng w) (w_forks w) (w_execv_ok w) (w_shmget w)
          (w_waits w) (shared_memory w) (w_trace w).
Definition set_nsecs (l : list Z) (w : World) : World :=
  mkWorld (w_time w) l (w_rng w) (w_forks w) (w_execv_ok w) (w_shmget w)
          (w_waits w) (shared_memory w) (w_trace w).
Definition set_rng (g : rng) (w : World) : World :=
  mkWorld (w_time w) (w_nsecs w) g (w_forks w) (w_execv_ok w) (w_shmget w)
          (w_waits w) (shared_memory w) (w_trace w).
Definition set_forks (l : list Z) (w : World) : World :=
  mkWorld (w_time w) (w_nsecs w) (w_rng w) l (w_execv_ok w) (w_shmget w)
          (w_waits w) (shared_memory w) (w_trace w).
Definition set_waits (l : list (Z * Z)) (w : World) : World :=
  mkWorld (w_time w) (w_nsecs w) (w_rng w) (w_forks w) (w_execv_ok w) (w_shmget w)
          l (shared_memory w) (w_trace w).
Definition set_shared_memory (m : option canvas) (w : World) : World :=
  mkWorld (w_time w) (w_nsecs w) (w_rng w) (w_forks w) (w_execv_ok w) (w_shmget w)
          (w_waits w) m (w_trace w).
Definition emit (e : event) (w : World) : World :=
  mkWorld (w_time w) (w_nsecs w) (w_rng w) (w_forks w) (w_execv_ok w) (w_shmget w)
          (w_waits w) (shared_memory w) (w_trace w ++ [e]).

(** How a computation of the process ends: it returns to its caller, the
    process ends with an exit status, it faults on an access through an
    invalid [shared_memory], or the model's loop bound is used up. *)
Inductive Outcome (A : Type) : Type :=
| Ret (a : A) (w : World)
| Exited (status : Z) (w : World)
| Fault (w : World)
| OutOfFuel (w : World).

Arguments Ret {A} a w.
Arguments Exited {A} status w.
Arguments Fault {A} w.
Arguments OutOfFuel {A} w.

Definition Proc (A : Type) : Type := World -> Outcome A.

Definition ret {A} (a : A) : Proc A := fun w => Ret a w.

Definition bind {A B} (m : Proc A) (k : A -> Proc B) : Proc B :=
  fun w =>
    match m w with
    | Ret a w' => k a w'
    | Exited st w' => Exited st w'
    | Fault w' => Fault w'
    | OutOfFuel w' => OutOfFuel w'
    end.

Notation "x <- m ;; k" := (bind m (fun x => k))
  (at level 100, m at next level, right associativity).
Notation "m ;;; k" := (bind m (fun _ => k))
  (at level 100, right associativity).

Definition final_world {A} (o : Outcome A) : World :=
  match o with
  | Ret _ w | Exited _ w | Fault w | OutOfFuel w => w
  end.

(** A [for] loop whose body runs in the process. *)
Fixpoint for_proc {St : Type} (n : nat) (body : nat -> St -> Proc St) (s : St) : Proc St :=
  match n with
  | O => ret s
  | S k => s' <- for_proc k body s ;; body k s'
  end.

(** *** System and library calls *)

Definition log (e : event) : Proc unit := fun w => Ret tt (emit e w).

Definition printf (text : string) : Proc unit := log (Stdout text).
Definition perror (msg : string) : Proc unit := log (Perror msg).
Definition exit {A} (status : Z) : Proc A := fun w => Exited status w.

(** [time(NULL)]; a [time_t] is 64 bits wide and the readings are far from
    its limits, so they are kept as exact integers. *)
Definition time : Proc Z := fun w => Ret (w_time w) w.

(** [clock_gettime(CLOCK_MONOTONIC, &ts)], giving [ts.tv_nsec]. *)
Definition clock_gettime_nsec : Proc Z := fun w =>
  match w_nsecs w with
  | [] => Ret 0 w
  | ns :: rest => Ret ns (set_nsecs rest w)
  end.

Definition call_srand (seed : Z) : Proc unit := fun w =>
  Ret tt (set_rng (srand (to_uint seed)) w).

Definition call_rand : Proc Z := fun w =>
  Ret (fst (rand (w_rng w))) (set_rng (snd (rand (w_rng w))) w).

(** [sleep(secs)] returns once the clock has advanced by [secs]. *)
Definition sleep (secs : Z) : Proc unit := fun w =>
  Ret tt (emit (Sleep secs) (set_time (w_time w + secs) w)).

Definition usleep (usecs : Z) : Proc unit := log (Usleep usecs).

(** [fork()]: the next answer of the environment; a process that may not
    create any more children gets -1. *)
Definition fork : Proc Z := fun w =>
  match w_forks w with
  | [] => Ret (-1) w
  | pid :: rest => Ret pid (set_forks rest w)
  end.

(** [execv]: on success the process image is replaced by the program,
    which runs and ends the process with status 0; on failure the call
    returns -1. *)
Definition execv (path : string) (args : list string) : Proc Z := fun w =>
  if w_execv_ok w then Exited 0 (emit (Execv path args) w)
  else Ret (-1) w.

Definition kill (pid sig : Z) : Proc unit := log (Kill pid sig).

(** [wait(NULL)] and [wait(&status)]: the pid and status of the next child
    reaped, or -1 without children. *)
Definition wait : Proc (Z * Z) := fun w =>
  match w_waits w with
  | [] => Ret (-1, 0) (emit Wait w)
  | r :: rest => Ret r (emit Wait (set_waits rest w))
  end.

Definition shmget : Proc Z := fun w => Ret (w_shmget w) w.

(** [shmat(shmid, NULL, 0)]: a new segment is attached zero-filled; with an
    invalid identifier the call returns [(void * ) -1], which addresses no
    canvas. *)
Definition zero_canvas : canvas :=
  replicate ART_HEIGHT (replicate ART_WIDTH "000"%char).

Definition shmat (shmid : Z) : Proc unit := fun w =>
  Ret tt (set_shared_memory (if shmid <? 0 then None else Some zero_canvas) w).

Definition shmdt : Proc unit := fun w =>
  Ret tt (emit Shmdt (set_shared_memory None w)).

Definition shmctl_rmid (shmid : Z) : Proc unit := log (Shmctl_rmid shmid).

(** *** The functions of the program *)

(** A mutation of the canvas through [shared_memory]. *)
Definition with_canvas (f : canvas -> canvas) : Proc unit := fun w =>
  match shared_memory w with
  | Some c => Ret tt (set_shared_memory (Some (f c)) w)
  | None => Fault w
  end.

Definition call_clear_canvas : Proc unit := with_canvas clear_canvas.

Definition call_print_canvas : Proc unit := fun w =>
  match shared_memory w with
  | Some c => Ret tt (emit (Stdout (print_canvas c)) w)
  | None => Fault (emit (Stdout (newline +:+ "====== ASCII ART ======" +:+ newline)) w)
  end.

(** The seed of line 55: [(time(NULL) ^ (worker_id << 16)) + ts.tv_nsec];
    [call_srand] converts it to [unsigned int]. *)
Definition shape_seed (worker_id now nsec : Z) : Z :=
  Z.lxor now (int_wrap (Z.shiftl worker_id 16)) + nsec.

(** Lines 53-60 of [draw_random_shape]: seeding, and the four draws that
    make the shape. *)
Definition random_shape (worker_id : Z) : Proc Shape :=
  nsec <- clock_gettime_nsec ;;
  now <- time ;;
  call_srand (shape_seed worker_id now nsec) ;;;
  r <- call_rand ;;
  let center_x := Z.rem r (Z.of_nat ART_WIDTH) in
  r <- call_rand ;;
  let center_y := Z.rem r (Z.of_nat ART_HEIGHT) in
  r <- call_rand ;;
  let radius := int_add 2 (Z.rem r 4) in
  r <- call_rand ;;
  let color := colors_at (to_ulong r mod (Z.of_nat (length colors) / 1)) in
  ret (mkShape center_x center_y radius color).

Definition char_string (ch : ascii) : string := String ch EmptyString.

(** [draw_random_shape], lines 50-73. *)
Definition draw_random_shape (worker_id : Z) : Proc unit :=
  s <- random_shape worker_id ;;
  with_canvas (apply_shape s) ;;;
  printf ("Painter " +:+ pretty worker_id +:+ " drew " +:+ char_string (color s)
          +:+ " at (" +:+ pretty (center_x s) +:+ "," +:+ pretty (center_y s)
          +:+ ")" +:+ newline).

(** One turn of the loop of [worker_process], lines 92-101; it returns the
    new value of [child_pid]. *)
Definition worker_turn (worker_id child_pid : Z) : Proc Z :=
  draw_random_shape worker_id ;;;
  r <- call_rand ;;
  child_pid <-
    (if (Z.rem r 5 =? 0) && (child_pid >? 0) then
       printf ("Painter " +:+ pretty worker_id +:+ " killing its subprocess "
               +:+ pretty child_pid +:+ newline) ;;;
       kill child_pid SIGTERM ;;;
       ret 0
     else ret child_pid) ;;
  r <- call_rand ;;
  sleep (int_add 1 (Z.rem r 2)) ;;;
  ret child_pid.

(** The loop of [worker_process], lines 91-102; it returns the final value
    of [child_pid].  Every turn sleeps for at least a second, so [fuel]
    bounds the turns when it is at least [timeout]. *)
Fixpoint worker_loop (fuel : nat) (worker_id start timeout child_pid : Z) : Proc Z :=
  now <- time ;;
  if now - start <? timeout then
    match fuel with
    | O => fun w => OutOfFuel w
    | S fuel' =>
        child_pid <- worker_turn worker_id child_pid ;;
        worker_loop fuel' worker_id start timeout child_pid
    end
  else ret child_pid.

(** [worker_process], lines 78-112. *)
Definition worker_process (worker_id timeout : Z) : Proc unit :=
  start <- time ;;
  child_pid <- fork ;;
  (if child_pid =? 0 then
     execv "/bin/echo" ["/bin/echo"; "Painter subprocess drawing..."]%string ;;;
     perror "execv failed" ;;;
     exit 1
   else if child_pid >? 0 then
     child_pid <- worker_loop (Z.to_nat timeout) worker_id start timeout child_pid ;;
     if child_pid >? 0 then wait ;;; ret tt else ret tt
   else
     perror "fork failed") ;;;
  exit 0.

(** The launch loop of [main], lines 128-143; it returns the array
    [workers]. *)
Definition launch_workers : Proc (list Z) :=
  for_proc MAX_WORKERS (fun i (workers : list Z) =>
    pid <- fork ;;
    if pid =? 0 then
      worker_process (Z.of_nat i) 8 ;;; ret workers
    else if pid >? 0 then
      printf ("Launched painter " +:+ pretty (Z.of_nat i) +:+ " (PID: "
              +:+ pretty pid +:+ ")" +:+ newline) ;;;
      usleep 100000 ;;;
      ret (<[i := pid]> workers)
    else
      perror "fork failed" ;;; exit 1)
    (replicate MAX_WORKERS 0).

(** [main], lines 114-174. *)
Definition main : Proc Z :=
  now <- time ;;
  call_srand now ;;;
  shmid <- shmget ;;
  shmat shmid ;;;
  call_clear_canvas ;;;
  call_print_canvas ;;;
  printf ("====== ASCII Art Generator ======" +:+ newline) ;;;
  workers <- launch_workers ;;
  for_proc 5 (fun i (_ : unit) =>
    sleep 3 ;;;
    call_print_canvas ;;;
    if (i =? 2)%nat then
      r <- call_rand ;;
      let worker_to_kill := Z.rem r (Z.of_nat MAX_WORKERS) in
      let pid := nth (Z.to_nat worker_to_kill) workers 0 in
      printf ("Main process killing painter " +:+ pretty worker_to_kill
              +:+ " (PID: " +:+ pretty pid +:+ ")" +:+ newline) ;;;
      kill pid SIGTERM
    else ret tt) tt ;;;
  for_proc MAX_WORKERS (fun _ (_ : unit) =>
    r <- wait ;;
    printf ("Painter PID " +:+ pretty (fst r) +:+ " terminated with status "
            +:+ pretty (snd r) +:+ newline)) tt ;;;
  printf (newline +:+ "== Final Artwork ==" +:+ newline) ;;;
  call_print_canvas ;;;
  shmdt ;;;
  shmctl_rmid shmid ;;;
  ret 0.

End Process.

Arguments Ret {_ A} a w.
Arguments Exited {_ A} status w.
Arguments Fault {_ A} w.
Arguments OutOfFuel {_ A} w.

Notation "x <- m ;; k" := (bind m (fun x => k))
  (at level 100, m at next level, right associativity).
Notation "m ;;; k" := (bind m (fun _ => k))
  (at level 100, right associativity).

(** ** The cell layer: unsynchronised accesses to the shared canvas *)

(** A single access to a cell of the shared canvas: the store of line 67
    or the load of line 43. *)
Inductive access : Type :=
| Write (y x : nat) (v : ascii)
| Read (y x : nat).

(** The stores of the drawing loop, lines 62-70, in program order. *)
Definition draw_accesses (s : Shape) : list access :=
  for_upto ART_HEIGHT (fun y acc =>
    for_upto ART_WIDTH (fun x acc =>
      if in_radius s y x then acc ++ [Write y x (color s)] else acc) acc) [].

(** The loads of [print_canvas], lines 41-46, in program order. *)
Definition print_accesses : list access :=
  for_upto ART_HEIGHT (fun y acc =>
    for_upto ART_WIDTH (fun x acc => acc ++ [Read y x]) acc) [].

(** The cells of the grid in the order [print_canvas] visits them, and the
    characters a canvas holds there. *)
Definition grid_cells : list (nat * nat) :=
  for_upto ART_HEIGHT (fun y acc =>
    for_upto ART_WIDTH (fun x acc => acc ++ [(y, x)]) acc) [].

Definition canvas_chars (c : canvas) : list ascii :=
  map (fun p => canvas_at c (fst p) (snd p)) grid_cells.

(** The shared canvas and the characters the printing process has read. *)
Definition access_step (st : canvas * list ascii) (a : access) : canvas * list ascii :=
  match a with
  | Write y x v => (set_cell (fst st) y x v, snd st)
  | Read y x => (fst st, snd st ++ [canvas_at (fst st) y x])
  end.

Definition run_accesses (l : list access) (st : canvas * list ascii) : canvas * list ascii :=
  fold_left access_step l st.

(** The schedules of two processes: the accesses of each in its program
    order, merged in any way.  Nothing in the program orders the accesses
    of one process against those of another. *)
Inductive interleave {A : Type} : list A -> list A -> list A -> Prop :=
| interleave_nil : interleave [] [] []
| interleave_left (a : A) (l1 l2 l : list A) :
    interleave l1 l2 l -> interleave (a :: l1) l2 (a :: l)
| interleave_right (a : A) (l1 l2 l : list A) :
    interleave l1 l2 l -> interleave l1 (a :: l2) (a :: l).

(** ** Specification vocabulary *)

(** The all-blank grid. *)
Definition blank_canvas : canvas :=
  replicate ART_HEIGHT (replicate ART_WIDTH blank).

(** The Euclidean distance from cell [(x, y)] to the center of [s] is at
    most the radius of [s]. *)
Definition within_radius (s : Shape) (y x : nat) : Prop :=
  (sqrt (IZR ((Z.of_nat x - center_x s) ^ 2 + (Z.of_nat y - center_y s) ^ 2))
   <= IZR (radius s))%R.

(** The [int] arithmetic of line 66 stays within [int] on every cell of
    the grid, which is when C defines its result. *)
Definition no_overflow (s : Shape) : Prop :=
  radius s * radius s <= INT_MAX /\
  forall y x : nat, (y < ART_HEIGHT)%nat -> (x < ART_WIDTH)%nat ->
    (Z.of_nat x - center_x s) ^ 2 + (Z.of_nat y - center_y s) ^ 2 <= INT_MAX.

(** Both loops over the grid write one value to the cells a test selects:
    [fill] is their common shape, [fill_row] what it does to one row. *)
Definition fill (p : nat -> nat -> bool) (v : ascii) (m n : nat) (c : canvas) : canvas :=
  for_upto m (fun y c =>
    for_upto n (fun x c => if p y x then set_cell c y x v else c) c) c.

Definition fill_row (p : nat -> bool) (v : ascii) (n : nat) (row : list ascii) : list ascii :=
  for_upto n (fun x row => if p x then <[x := v]> row else row) row.

(** The text of an all-blank snapshot: the banner, [ART_HEIGHT] lines of
    [ART_WIDTH] spaces, the closing line. *)
Definition blank_text : string :=
  newline +:+ "====== ASCII ART ======" +:+ newline
  +:+ String.concat "" (replicate ART_HEIGHT
        (string_of_list_ascii (replicate ART_WIDTH " "%char) +:+ newline))
  +:+ "======================" +:+ newline +:+ newline.

(** Counting events of a trace. *)
Definition is_kill (e : event) : bool :=
  match e with Kill _ _ => true | _ => false end.
Definition is_wait (e : event) : bool :=
  match e with Wait => true | _ => false end.

Definition count (p : event -> bool) (tr : list event) : nat :=
  length (List.filter p tr).

(** The symbols of a canvas reachable from a cleared one. *)
Definition in_alphabet (ch : ascii) : Prop :=
  ch = blank \/ ch ∈ colors.

(** A launch of the loop of lines 131-143 fails: one of its [n] calls of
    [fork] is answered with a negative value, the earlier ones with the
    pids of new workers. *)
Fixpoint launch_fails (n : nat) (answers : list Z) : bool :=
  match n with
  | O => false
  | S n' =>
      match answers with
      | [] => true
      | pid :: rest =>
          if pid <? 0 then true
          else if pid =? 0 then false
          else launch_fails n' rest
      end
  end.

(** A snapshot is consistent when it shows the canvas as it was before the
    concurrent drawing or as it is after it. *)
Definition snapshot_consistent (s : Shape) (c : canvas) (sched : list access) : Prop :=
  snd (run_accesses sched (c, [])) = canvas_chars c \/
  snd (run_accesses sched (c, [])) = canvas_chars (apply_shape s c).

(** The schedule that lets the printer read [k] cells, then runs the whole
    drawing, then lets the printer finish. *)
Definition preempted_print (s : Shape) (k : nat) : list access :=
  take k print_accesses ++ draw_accesses s ++ drop k print_accesses.

(** The layout of a printed canvas: the characters of row [y] with the
    newline that ends it, and the two banners. *)
Definition row_chars (c : canvas) (y : nat) : list ascii :=
  map (canvas_at c y) (seq 0 ART_WIDTH) ++ ["010"%char].

Definition banner_top : string :=
  newline +:+ "====== ASCII ART ======" +:+ newline.

Definition banner_bottom : string :=
  "======================" +:+ newline +:+ newline.

Definition is_sleep (e : event) : bool :=
  match e with Sleep _ => true | _ => false end.

(** The live child, if any, counted as one. *)
Definition live (child_pid : Z) : nat := if child_pid >? 0 then 1%nat else 0%nat.

(** The line [draw_random_shape] prints for the shape [s]. *)
Definition drew_line (worker_id : Z) (s : Shape) : string :=
  "Painter " +:+ pretty worker_id +:+ " drew " +:+ char_string (color s)
  +:+ " at (" +:+ pretty (center_x s) +:+ "," +:+ pretty (center_y s)
  +:+ ")" +:+ newline.

(** The events of a complete run of the parent, in order: the first
    print and the title, the two launches, five rounds of a sleep and a
    print with the signal to [victim] in the third, the two waits with
    their reports, the final print, and the release of the segment
    [shmid].  [snapshot] is the text of the prints; the other lines are in
    [lines]. *)
Definition supervisor_events (snapshot : string) (victim shmid : Z)
    (title launched0 launched1 killing reaped0 reaped1 final : string) : list event :=
  [Stdout snapshot; Stdout title;
   Stdout launched0; Usleep 100000; Stdout launched1; Usleep 100000;
   Sleep 3; Stdout snapshot; Sleep 3; Stdout snapshot; Sleep 3; Stdout snapshot;
   Stdout killing; Kill victim SIGTERM;
   Sleep 3; Stdout snapshot; Sleep 3; Stdout snapshot;
   Wait; Stdout reaped0; Wait; Stdout reaped1;
   Stdout final; Stdout snapshot; Shmdt; Shmctl_rmid shmid].

Definition is_release (e : event) : bool :=
  match e with Shmdt | Shmctl_rmid _ => true | _ => false end.

(** The value of the last store to cell [(y, x)] in a schedule, if any. *)
Fixpoint last_write (l : list access) (y x : nat) : option ascii :=
  match l with
  | [] => None
  | a :: l' =>
      match last_write l' y x with
      | Some v => Some v
      | None =>
          match a with
          | Write y' x' v => if decide (y' = y /\ x' = x) then Some v else None
          | Read _ _ => None
          end
      end
  end.

(** A signal in a trace goes to the live child [child_pid] and is [SIGTERM]. *)
Definition signals_only (child_pid : Z) (tr : list event) : Prop :=
  Forall (fun e => is_kill e = true -> e = Kill child_pid SIGTERM /\ 0 < child_pid) tr.

Section Vocabulary.

Context `{RandSource}.

(** Repeated snapshots: [n] calls of [print_canvas] in a row. *)
Definition snapshots (n : nat) : Proc unit :=
  for_proc n (fun _ _ => call_print_canvas) tt.

(** A canvas is reachable when it is a cleared canvas, or what a call of
    [draw_random_shape] by any worker, in any state of its clock and
    random source, makes of a reachable canvas. *)
Inductive reachable : canvas -> Prop :=
| reach_clear (c : canvas) :
    canvas_wf c -> reachable (clear_canvas c)
| reach_draw (worker_id : Z) (w w' : World) (c c' : canvas) :
    reachable c ->
    shared_memory w = Some c ->
    draw_random_shape worker_id w = Ret tt w' ->
    shared_memory w' = Some c' ->
    reachable c'.

(** A worker runs for its full budget when it ends with status 0 after
    at least [timeout] seconds. *)
Definition runs_full_budget (worker_id timeout : Z) (w : World) : Prop :=
  exists w', worker_process worker_id timeout w = Exited 0 w' /\
    timeout <= w_time w' - w_time w.

(** The trace [tr] cancels and awaits the workers [pids]: each of them is
    sent a signal, and there are as many waits as workers. *)
Definition cancels_and_awaits (pids : list Z) (tr : list event) : Prop :=
  (forall pid : Z, pid ∈ pids -> exists sig : Z, Kill pid sig ∈ tr) /\
  (length pids <= count is_wait tr)%nat.

(** A run that fails to launch a worker ends with a non-zero status after
    cancelling and awaiting the workers [launched] before. *)
Definition launch_failure_cleans_up (launched : list Z) (w : World) : Prop :=
  exists (status : Z) (w' : World), main w = Exited status w' /\
    status <> 0 /\ cancels_and_awaits launched (w_trace w').

End Vocabulary.

(** ** Sample inputs *)

(** A disc of radius 3 around column 10 of row 5. *)
Definition demo_shape : Shape := mkShape 10 5 3 "@".

(** A painter about to start, with the sample generator: its [fork] will
    give it the child 4242, and the canvas has just been cleared. *)
Definition demo_world : World :=
  mkWorld 1000 [123456; 999; 5; 7; 11; 13; 17; 19; 23] (srand 0) [4242] true 7
          [(4242, 0)] (Some (clear_canvas zero_canvas)) [].

(** The same painter one second later. *)
Definition later_world : World := set_time 1001 demo_world.

(** The painter after one call of [draw_random_shape], and its canvas. *)
Definition drawn_world : World := final_world (draw_random_shape 1 demo_world).

Definition drawn_canvas : canvas := default [] (shared_memory drawn_world).

(** A painter in front of a canvas with a disc on it. *)
Definition scribbled_world : World :=
  set_shared_memory (Some (apply_shape demo_shape zero_canvas)) demo_world.

(** A painter whose [fork] will fail. *)
Definition no_fork_world : World := set_forks [-1] demo_world.

(** The parent at start-up when no segment can be allocated. *)
Definition no_segment_world : World :=
  mkWorld 1000 [] (srand 0) [501; 502] true (-1) [(501, 0); (502, 15)] None [].

(** The parent at start-up when the second [fork] will fail. *)
Definition second_fork_fails_world : World :=
  mkWorld 1000 [] (srand 0) [501; -1] true 7 [] None [].

(** A second disc, with the symbol of [demo_shape] and overlapping it. *)
Definition near_shape : Shape := mkShape 12 5 2 "@".

(** A disc with another symbol that overlaps [demo_shape]. *)
Definition rival_shape : Shape := mkShape 13 6 3 "*".

(** The child of a painter's [fork]. *)
Definition subtask_world : World := set_forks [0] demo_world.

(** The parent at start-up when both launches will succeed. *)
Definition parent_world : World :=
  mkWorld 1000 [] (srand 0) [501; 502] true 7 [(501, 0); (502, 15)] None [].


(** Two drawings racing: [rival_shape] gets three stores in before
    [demo_shape] is drawn whole, then finishes. *)
Definition racing_draws : list access :=
  take 3 (draw_accesses rival_shape) ++ draw_accesses demo_shape
  ++ drop 3 (draw_accesses rival_shape).

(** * Properties of the canvas layer *)

Lemma apply_shape_fill (s : Shape) (c : canvas) :
  apply_shape s c = fill (in_radius s) (color s) ART_HEIGHT ART_WIDTH c.
Proof. unfold apply_shape, fill. generalize ART_HEIGHT, ART_WIDTH. reflexivity. Qed.

Lemma clear_canvas_fill (c : canvas) :
  clear_canvas c = fill (fun _ _ => true) blank ART_HEIGHT ART_WIDTH c.
Proof. unfold clear_canvas, fill. generalize ART_HEIGHT, ART_WIDTH. reflexivity. Qed.

Lemma fill_row_length p v n (row : list ascii) :
  length (fill_row p v n row) = length row.
Proof.
  induction n as [|n IH]; [done|].
  change (fill_row p v (S n) row)
    with (if p n then <[n := v]> (fill_row p v n row) else fill_row p v n row).
  destruct (p n); [by rewrite length_insert|done].
Qed.

Lemma fill_row_lookup p v n (row : list ascii) (x : nat) :
  fill_row p v n row !! x =
  if (x <? n)%nat && p x then (fun _ => v) <$> row !! x else row !! x.
Proof.
  induction n as [|n IH]; [done|].
  change (fill_row p v (S n) row)
    with (if p n then <[n := v]> (fill_row p v n row) else fill_row p v n row).
  destruct (decide (x = n)) as [->|Hne].
  - replace (n <? S n)%nat with true by (symmetry; apply Nat.ltb_lt; lia).
    simpl. destruct (p n) eqn:Hp.
    + rewrite list_lookup_insert, fill_row_length.
      destruct (decide _) as [[_ Hlt]|Hge].
      * apply lookup_lt_is_Some_2 in Hlt as [ch ->]. done.
      * rewrite IH, Nat.ltb_irrefl. simpl.
        by rewrite lookup_ge_None_2 by lia.
    + rewrite IH. by rewrite andb_false_r.
  - replace (x <? S n)%nat with (x <? n)%nat
      by (destruct (Nat.ltb_spec x n), (Nat.ltb_spec x (S n)); done || lia).
    destruct (p n); [|done].
    rewrite list_lookup_insert_ne by done. done.
Qed.

Lemma fill_cols_lookup (p : nat -> bool) v y n (c : canvas) (y' : nat) :
  for_upto n (fun x c => if p x then set_cell c y x v else c) c !! y' =
  if decide (y = y') then fill_row p v n <$> c !! y else c !! y'.
Proof.
  induction n as [|n IH].
  - simpl. destruct (decide _) as [->|]; [|done]. by destruct (c !! y').
  - simpl for_upto at 1.
    change (fill_row p v (S n))
      with (fun row => if p n then <[n := v]> (fill_row p v n row) else fill_row p v n row).
    destruct (p n).
    + unfold set_cell at 1. rewrite list_lookup_alter.
      destruct (decide (y = y')) as [<-|Hne]; rewrite IH; [|done].
      by destruct (c !! y).
    + rewrite IH. destruct (decide _); [|done]. by destruct (c !! y).
Qed.

Lemma fill_lookup p v m n (c : canvas) (y : nat) :
  fill p v m n c !! y =
  if (y <? m)%nat then fill_row (p y) v n <$> c !! y else c !! y.
Proof.
  induction m as [|m IH]; [done|].
  change (fill p v (S m) n c)
    with (for_upto n (fun x c => if p m x then set_cell c m x v else c) (fill p v m n c)).
  rewrite fill_cols_lookup. destruct (decide (m = y)) as [->|Hne].
  - rewrite IH. rewrite Nat.ltb_irrefl.
    by replace (y <? S y)%nat with true by (symmetry; apply Nat.ltb_lt; lia).
  - rewrite IH.
    by replace (y <? S m)%nat with (y <? m)%nat
      by (destruct (Nat.ltb_spec y m), (Nat.ltb_spec y (S m)); done || lia).
Qed.

Lemma fill_cell p v m n (c : canvas) (y x : nat) :
  cell (fill p v m n c) y x =
  if (y <? m)%nat && (x <? n)%nat && p y x
  then (fun _ => v) <$> cell c y x else cell c y x.
Proof.
  unfold cell. rewrite fill_lookup.
  destruct (y <? m)%nat; [|done]. simpl.
  destruct (c !! y) as [row|]; simpl; [|by destruct (_ && _)].
  apply fill_row_lookup.
Qed.

Lemma fill_length p v m n (c : canvas) : length (fill p v m n c) = length c.
Proof.
  destruct (Nat.lt_trichotomy (length (fill p v m n c)) (length c)) as [Hlt|[Heq|Hgt]];
    [|done|].
  - assert (Hn : fill p v m n c !! length (fill p v m n c) = None)
      by (apply lookup_ge_None_2; lia).
    rewrite fill_lookup in Hn.
    apply lookup_lt_is_Some_2 in Hlt as [row Hrow]. rewrite Hrow in Hn.
    by destruct (_ <? _)%nat.
  - apply lookup_lt_is_Some_2 in Hgt as [row Hrow]. rewrite fill_lookup in Hrow.
    rewrite (lookup_ge_None_2 c (length c)) in Hrow by lia.
    by destruct (_ <? _)%nat.
Qed.

Lemma fill_wf p v m n (c : canvas) : canvas_wf c -> canvas_wf (fill p v m n c).
Proof.
  intros [Hlen Hrows]. split; [by rewrite fill_length|].
  apply Forall_lookup_2. intros y row Hy. rewrite fill_lookup in Hy.
  rewrite Forall_lookup in Hrows.
  destruct (y <? m)%nat.
  - destruct (c !! y) as [row'|] eqn:Hc; [|done]. simpl in Hy.
    injection Hy as <-. rewrite fill_row_length. eauto.
  - eauto.
Qed.

Lemma wf_cell_is_Some (c : canvas) (y x : nat) :
  canvas_wf c -> (y < ART_HEIGHT)%nat -> (x < ART_WIDTH)%nat -> is_Some (cell c y x).
Proof.
  intros [Hlen Hrows] Hy Hx. unfold cell.
  destruct (lookup_lt_is_Some_2 c y) as [row Hrow]; [lia|].
  rewrite Hrow. simpl. apply lookup_lt_is_Some_2.
  rewrite Forall_lookup in Hrows. rewrite (Hrows _ _ Hrow). done.
Qed.

Lemma wf_cell_None (c : canvas) (y x : nat) :
  canvas_wf c -> ~ ((y < ART_HEIGHT)%nat /\ (x < ART_WIDTH)%nat) -> cell c y x = None.
Proof.
  intros [Hlen Hrows] Hout. unfold cell.
  destruct (c !! y) as [row|] eqn:Hrow; [|done]. simpl.
  apply lookup_ge_None_2. rewrite Forall_lookup in Hrows.
  rewrite (Hrows _ _ Hrow). apply lookup_lt_Some in Hrow. lia.
Qed.

Lemma canvas_wfb_correct (c : canvas) : canvas_wfb c = true -> canvas_wf c.
Proof.
  unfold canvas_wfb, canvas_wf. rewrite andb_true_iff, forallb_forall.
  intros [Hlen Hrows]. split; [by apply Nat.eqb_eq|].
  apply Forall_forall. intros row Hin. apply Nat.eqb_eq, Hrows.
  by apply list_elem_of_In.
Qed.

Lemma blank_canvas_wf : canvas_wf blank_canvas.
Proof. apply canvas_wfb_correct. vm_compute. reflexivity. Qed.

Lemma zero_canvas_wf : canvas_wf zero_canvas.
Proof. apply canvas_wfb_correct. vm_compute. reflexivity. Qed.

(** *** Integer arithmetic of the radius test *)

Lemma int_wrap_small (z : Z) : - 2 ^ 31 <= z <= INT_MAX -> int_wrap z = z.
Proof.
  unfold int_wrap, INT_MAX. intros Hz.
  rewrite Z.mod_small by lia. lia.
Qed.

Lemma square_bound (d : Z) : d ^ 2 <= INT_MAX -> - 46341 < d < 46341.
Proof. unfold INT_MAX. nia. Qed.

(** Without overflow the test of line 66 compares the squared distance
    with the squared radius. *)
Lemma in_radius_exact (s : Shape) (y x : nat) :
  no_overflow s -> (y < ART_HEIGHT)%nat -> (x < ART_WIDTH)%nat ->
  in_radius s y x =
  ((Z.of_nat x - center_x s) ^ 2 + (Z.of_nat y - center_y s) ^ 2
   <=? radius s * radius s).
Proof.
  intros [Hr Hgrid] Hy Hx. specialize (Hgrid y x Hy Hx).
  unfold in_radius, int_add, int_sub, int_mul.
  set (dx := Z.of_nat x - center_x s) in *.
  set (dy := Z.of_nat y - center_y s) in *.
  assert (Hdx : dx ^ 2 <= INT_MAX) by nia.
  assert (Hdy : dy ^ 2 <= INT_MAX) by nia.
  pose proof (square_bound dx Hdx). pose proof (square_bound dy Hdy).
  rewrite (int_wrap_small dx), (int_wrap_small dy) by (unfold INT_MAX; lia).
  rewrite (int_wrap_small (dx * dx)), (int_wrap_small (dy * dy))
    by (unfold INT_MAX in *; nia).
  rewrite (int_wrap_small (dx * dx + dy * dy)) by (unfold INT_MAX in *; nia).
  rewrite (int_wrap_small (radius s * radius s)) by (unfold INT_MAX in *; nia).
  f_equal. lia.
Qed.

(** The Euclidean distance compared through squares. *)
Lemma sqrt_le_square (n r : Z) :
  0 <= n -> 0 <= r -> (sqrt (IZR n) <= IZR r)%R <-> n <= r * r.
Proof.
  intros Hn Hr. split.
  - intros Hle. apply le_IZR. rewrite mult_IZR.
    apply (sqrt_le_0 (IZR n) (IZR r * IZR r)).
    + apply IZR_le. lia.
    + apply Rmult_le_pos; apply IZR_le; lia.
    + rewrite sqrt_square; [exact Hle|apply IZR_le; lia].
  - intros Hle. rewrite <- (sqrt_square (IZR r)) by (apply IZR_le; lia).
    apply sqrt_le_1_alt. rewrite <- mult_IZR. apply IZR_le. exact Hle.
Qed.

Lemma within_radius_squares (s : Shape) (y x : nat) :
  0 <= radius s ->
  within_radius s y x <->
  (Z.of_nat x - center_x s) ^ 2 + (Z.of_nat y - center_y s) ^ 2
  <= radius s * radius s.
Proof. intros Hr. unfold within_radius. apply sqrt_le_square; nia. Qed.

Lemma in_radius_within (s : Shape) (y x : nat) :
  0 <= radius s -> no_overflow s -> (y < ART_HEIGHT)%nat -> (x < ART_WIDTH)%nat ->
  in_radius s y x = true <-> within_radius s y x.
Proof.
  intros Hr Hno Hy Hx. rewrite in_radius_exact by done.
  rewrite within_radius_squares by done. apply Z.leb_le.
Qed.

(** The shapes that [random_shape] produces are within these bounds. *)
Lemma bounded_shape_no_overflow (s : Shape) :
  0 <= center_x s < Z.of_nat ART_WIDTH ->
  0 <= center_y s < Z.of_nat ART_HEIGHT ->
  2 <= radius s <= 5 ->
  0 <= radius s /\ no_overflow s.
Proof.
  unfold no_overflow, ART_WIDTH, ART_HEIGHT, INT_MAX. intros Hx Hy Hr.
  split; [lia|]. split; [nia|]. intros y x Hy' Hx'. nia.
Qed.

(** *** Drawing a disc *)

Lemma apply_shape_wf (s : Shape) (c : canvas) :
  canvas_wf c -> canvas_wf (apply_shape s c).
Proof. rewrite apply_shape_fill. apply fill_wf. Qed.

Lemma apply_shape_cell (s : Shape) (c : canvas) (y x : nat) :
  cell (apply_shape s c) y x =
  if (y <? ART_HEIGHT)%nat && (x <? ART_WIDTH)%nat && in_radius s y x
  then (fun _ => color s) <$> cell c y x else cell c y x.
Proof. rewrite apply_shape_fill. apply fill_cell. Qed.

(** C1: on a canvas of the declared dimensions, applying a shape with a
    non-negative radius (and coordinates for which the [int] arithmetic of
    the test does not overflow) sets exactly the cells of the grid whose
    Euclidean distance from the center is at most the radius to the symbol
    of the shape, and leaves every other cell as it was. *)
Theorem apply_shape_exact (s : Shape) (c : canvas) :
  canvas_wf c -> 0 <= radius s -> no_overflow s ->
  canvas_wf (apply_shape s c) /\
  forall y x : nat,
    ((y < ART_HEIGHT)%nat /\ (x < ART_WIDTH)%nat /\ within_radius s y x ->
     cell (apply_shape s c) y x = Some (color s)) /\
    (~ ((y < ART_HEIGHT)%nat /\ (x < ART_WIDTH)%nat /\ within_radius s y x) ->
     cell (apply_shape s c) y x = cell c y x).
Proof.
  intros Hwf Hr Hno. split; [by apply apply_shape_wf|].
  intros y x. rewrite apply_shape_cell. split.
  - intros (Hy & Hx & Hin).
    apply (in_radius_within s y x Hr Hno Hy Hx) in Hin. rewrite Hin.
    apply Nat.ltb_lt in Hy as Hyb. apply Nat.ltb_lt in Hx as Hxb.
    rewrite Hyb, Hxb. simpl.
    destruct (wf_cell_is_Some c y x Hwf Hy Hx) as [ch ->]. done.
  - intros Hout.
    destruct (Nat.ltb_spec y ART_HEIGHT) as [Hy|Hy]; [|done].
    destruct (Nat.ltb_spec x ART_WIDTH) as [Hx|Hx]; [|done].
    simpl. destruct (in_radius s y x) eqn:Hin; [|done].
    apply (in_radius_within s y x Hr Hno Hy Hx) in Hin. tauto.
Qed.

(** C10: drawing the same shape twice in a row gives the canvas that
    drawing it once gives, for every shape and every canvas. *)
Theorem apply_shape_idempotent (s : Shape) (c : canvas) :
  apply_shape s (apply_shape s c) = apply_shape s c.
Proof.
  rewrite !apply_shape_fill. apply list_eq. intros y.
  rewrite !fill_lookup. destruct (y <? ART_HEIGHT)%nat; [|done].
  destruct (c !! y) as [row|]; [|done]. simpl. f_equal.
  apply list_eq. intros x. rewrite !fill_row_lookup.
  destruct (_ && _); [|done]. by destruct (row !! x).
Qed.

(** *** Clearing and printing *)

Lemma clear_canvas_blank (c : canvas) : canvas_wf c -> clear_canvas c = blank_canvas.
Proof.
  intros [Hlen Hrows]. rewrite clear_canvas_fill. apply list_eq. intros y.
  rewrite fill_lookup. unfold blank_canvas.
  destruct (Nat.ltb_spec y ART_HEIGHT) as [Hy|Hy].
  - rewrite lookup_replicate_2 by done.
    destruct (lookup_lt_is_Some_2 c y) as [row Hrow]; [lia|].
    rewrite Hrow. cbn [fmap option_fmap option_map]. f_equal.
    rewrite Forall_lookup in Hrows. specialize (Hrows _ _ Hrow).
    apply list_eq. intros x. rewrite fill_row_lookup, andb_true_r.
    destruct (Nat.ltb_spec x ART_WIDTH) as [Hx|Hx].
    + rewrite lookup_replicate_2 by done.
      destruct (lookup_lt_is_Some_2 row x) as [ch ->]; [lia|]. done.
    + rewrite lookup_ge_None_2 by lia. symmetry. by apply lookup_replicate_None.
  - rewrite lookup_ge_None_2 by lia. symmetry. by apply lookup_replicate_None.
Qed.

Lemma blank_canvas_cell (y x : nat) :
  (y < ART_HEIGHT)%nat -> (x < ART_WIDTH)%nat -> cell blank_canvas y x = Some blank.
Proof.
  intros Hy Hx. unfold cell, blank_canvas.
  rewrite lookup_replicate_2 by done. cbn [mbind option_bind].
  by apply lookup_replicate_2.
Qed.

(** * Properties of the process layer *)

Section ProcessProps.

Context `{RandSource}.

Lemma print_blank_text : print_canvas blank_canvas = blank_text.
Proof. vm_compute. reflexivity. Qed.

Lemma snapshots_run (n : nat) (w : World) (c : canvas) :
  shared_memory w = Some c ->
  exists w', snapshots n w = Ret tt w' /\
    shared_memory w' = Some c /\
    w_trace w' = w_trace w ++ replicate n (Stdout (print_canvas c)).
Proof.
  intros Hc. unfold snapshots. induction n as [|n (w1 & Hrun & Hc1 & Htr)].
  - exists w. simpl. by rewrite app_nil_r.
  - cbn [for_proc]. unfold bind at 1. rewrite Hrun.
    unfold call_print_canvas. rewrite Hc1. eexists. split; [reflexivity|].
    split; [exact Hc1|]. cbn [w_trace emit]. rewrite Htr.
    rewrite <- app_assoc. f_equal.
    change [Stdout (print_canvas c)] with (replicate 1 (Stdout (print_canvas c))).
    rewrite <- replicate_add. f_equal. lia.
Qed.

(** C7: [clear_canvas] sets every cell of the [ART_HEIGHT] by [ART_WIDTH]
    grid to blank, and any number of snapshots taken after it, with no
    drawing in between, each print the all-blank grid and leave the canvas
    all blank. *)
Theorem clear_then_snapshots_blank (n : nat) (w : World) (c : canvas) :
  shared_memory w = Some c -> canvas_wf c ->
  (forall y x : nat, (y < ART_HEIGHT)%nat -> (x < ART_WIDTH)%nat ->
     cell (clear_canvas c) y x = Some blank) /\
  exists w', (call_clear_canvas ;;; snapshots n) w = Ret tt w' /\
    shared_memory w' = Some blank_canvas /\
    w_trace w' = w_trace w ++ replicate n (Stdout blank_text).
Proof.
  intros Hc Hwf. rewrite (clear_canvas_blank c Hwf). split.
  - apply blank_canvas_cell.
  - unfold bind, call_clear_canvas, with_canvas. rewrite Hc.
    rewrite (clear_canvas_blank c Hwf).
    destruct (snapshots_run n (set_shared_memory (Some blank_canvas) w) blank_canvas)
      as (w' & Hrun & Hc' & Htr); [reflexivity|].
    exists w'. rewrite Hrun. rewrite print_blank_text in Htr. done.
Qed.

(** *** Random shapes *)

Lemma colors_at_in (i : Z) : 0 <= i < 10 -> colors_at i ∈ colors.
Proof.
  intros Hi.
  assert (Hcases : i = 0 \/ i = 1 \/ i = 2 \/ i = 3 \/ i = 4 \/ i = 5 \/ i = 6
                   \/ i = 7 \/ i = 8 \/ i = 9) by lia.
  apply list_elem_of_In.
  repeat (destruct Hcases as [->|Hcases]; [vm_compute; tauto|]).
  subst i. vm_compute. tauto.
Qed.

(** What a call of [random_shape] does to the world, and the shape it
    gives. *)
Lemma random_shape_run (worker_id : Z) (w : World) :
  exists s w', random_shape worker_id w = Ret s w' /\
    (w_time w' = w_time w /\ w_forks w' = w_forks w /\
     shared_memory w' = shared_memory w /\ w_trace w' = w_trace w) /\
    0 <= center_x s < Z.of_nat ART_WIDTH /\
    0 <= center_y s < Z.of_nat ART_HEIGHT /\
    2 <= radius s <= 5 /\
    color s ∈ colors.
Proof.
  unfold random_shape, bind, clock_gettime_nsec, time, call_srand, call_rand, ret.
  destruct (w_nsecs w) as [|ns rest];
    cbn [w_rng w_time w_nsecs set_rng set_nsecs];
    (eexists; eexists; split; [reflexivity|]);
    (split; [done|]);
    repeat match goal with
    | |- context [rand ?g] =>
        lazymatch goal with
        | _ : 0 <= fst (rand g) <= INT_MAX |- _ => fail
        | _ => pose proof (rand_range g)
        end
    end;
    cbn [center_x center_y radius color];
    unfold ART_WIDTH, ART_HEIGHT, INT_MAX in *.
  all: repeat split;
    try (apply Z.rem_bound_pos; lia);
    try (match goal with
         | |- context [int_add 2 (Z.rem ?r 4)] =>
             pose proof (Z.rem_bound_pos r 4 ltac:(lia) ltac:(lia));
             unfold int_add; rewrite int_wrap_small by (unfold INT_MAX; lia); lia
         end).
  all: apply colors_at_in; change (Z.of_nat (length colors) / 1) with 10;
    apply Z.mod_pos_bound; lia.
Qed.

(** C8: for every worker id and every state of the clock and the random
    source, the shape of lines 53-60 has its center inside the grid, a
    radius between 2 and 5, and one of the ten symbols. *)
Theorem random_shape_in_range (worker_id : Z) (w : World) :
  exists s w', random_shape worker_id w = Ret s w' /\
    0 <= center_x s < Z.of_nat ART_WIDTH /\
    0 <= center_y s < Z.of_nat ART_HEIGHT /\
    2 <= radius s <= 5 /\
    color s ∈ ["@"; ")"; "*"; "+"; "."; "$"; "("; "0"; "&"; "%"]%char.
Proof.
  destruct (random_shape_run worker_id w) as (s & w' & Hrun & _ & Hx & Hy & Hr & Hc).
  exists s, w'. done.
Qed.

(** *** Drawing a random shape *)

Lemma draw_random_shape_run (worker_id : Z) (w : World) :
  exists s w1, random_shape worker_id w = Ret s w1 /\
    (0 <= center_x s < Z.of_nat ART_WIDTH /\
     0 <= center_y s < Z.of_nat ART_HEIGHT /\
     2 <= radius s <= 5 /\ color s ∈ colors) /\
    match shared_memory w with
    | Some c =>
        exists w' text, draw_random_shape worker_id w = Ret tt w' /\
          shared_memory w' = Some (apply_shape s c) /\
          w_time w' = w_time w /\ w_forks w' = w_forks w /\
          w_trace w' = w_trace w ++ [Stdout text]
    | None =>
        exists w', draw_random_shape worker_id w = Fault w' /\
          w_trace w' = w_trace w
    end.
Proof.
  destruct (random_shape_run worker_id w)
    as (s & w1 & Hrun & (Ht & Hf & Hm & Htr) & Hx & Hy & Hr & Hc).
  exists s, w1. split; [done|]. split; [done|].
  unfold draw_random_shape, bind. rewrite Hrun. unfold with_canvas.
  rewrite Hm. destruct (shared_memory w) as [c|].
  - eexists _, _. split; [reflexivity|].
    cbn [shared_memory w_time w_forks w_trace emit set_shared_memory].
    by rewrite Ht, Hf, Htr.
  - by eexists.
Qed.

(** Every call of [draw_random_shape] applies a shape with a non-negative
    radius whose radius test does not overflow. *)
Lemma draw_random_shape_applies (worker_id : Z) (w : World) (c : canvas) :
  shared_memory w = Some c ->
  exists s w', draw_random_shape worker_id w = Ret tt w' /\
    shared_memory w' = Some (apply_shape s c) /\
    0 <= radius s /\ no_overflow s.
Proof.
  intros Hc.
  destruct (draw_random_shape_run worker_id w) as (s & w1 & _ & (Hx & Hy & Hr & _) & Hrun).
  rewrite Hc in Hrun. destruct Hrun as (w' & text & Hrun & Hm & _).
  exists s, w'. split; [done|]. split; [done|].
  by apply bounded_shape_no_overflow.
Qed.

Lemma apply_shape_alphabet (s : Shape) (c : canvas) :
  in_alphabet (color s) ->
  (forall y x ch, cell c y x = Some ch -> in_alphabet ch) ->
  forall y x ch, cell (apply_shape s c) y x = Some ch -> in_alphabet ch.
Proof.
  intros Hs Hc y x ch. rewrite apply_shape_cell.
  destruct (_ && _); [|by apply Hc].
  destruct (cell c y x); [|done]. simpl. by intros [= <-].
Qed.

(** C6: every canvas reached from a cleared one by any sequence of calls
    of [draw_random_shape] has the declared dimensions, and each of its
    cells is blank or one of the ten symbols of [colors]. *)
Theorem reachable_alphabet (c : canvas) :
  reachable c ->
  canvas_wf c /\
  forall (y x : nat) (ch : ascii), cell c y x = Some ch ->
    ch = " "%char \/
    ch ∈ ["@"; ")"; "*"; "+"; "."; "$"; "("; "0"; "&"; "%"]%char.
Proof.
  induction 1 as [c Hwf|wid w w' c c' Hreach [IHwf IH] Hc Hdraw Hc'].
  - rewrite (clear_canvas_blank c Hwf). split; [apply blank_canvas_wf|].
    intros y x ch Hcell. left.
    destruct (decide ((y < ART_HEIGHT)%nat /\ (x < ART_WIDTH)%nat)) as [[Hy Hx]|Hout].
    + rewrite blank_canvas_cell in Hcell by done. by injection Hcell as <-.
    + by rewrite (wf_cell_None _ _ _ blank_canvas_wf Hout) in Hcell.
  - destruct (draw_random_shape_run wid w) as (s & w1 & _ & (_ & _ & _ & Hcol) & Hrun).
    rewrite Hc in Hrun. destruct Hrun as (w2 & text & Hrun & Hm & _).
    rewrite Hdraw in Hrun. injection Hrun as <-.
    rewrite Hc' in Hm. injection Hm as ->.
    split; [by apply apply_shape_wf|].
    apply (apply_shape_alphabet s c); [by right|exact IH].
Qed.

(** *** The worker *)

Lemma count_app (p : event -> bool) (tr1 tr2 : list event) :
  count p (tr1 ++ tr2) = (count p tr1 + count p tr2)%nat.
Proof. unfold count. by rewrite List.filter_app, length_app. Qed.

Lemma sleep_secs_bound (r : Z) : 0 <= r -> 1 <= int_add 1 (Z.rem r 2) <= 2.
Proof.
  intros Hr. pose proof (Z.rem_bound_pos r 2 Hr ltac:(lia)).
  unfold int_add. rewrite int_wrap_small by (unfold INT_MAX; lia). lia.
Qed.

(** One turn of the loop: with a canvas behind [shared_memory] it draws,
    sends at most one signal, never waits, and sleeps one or two seconds;
    a signal is sent only to a live child, whose pid is then forgotten. *)
Lemma worker_turn_run (worker_id child_pid : Z) (w : World) :
  match shared_memory w with
  | Some c =>
      exists p w' tr, worker_turn worker_id child_pid w = Ret p w' /\
        w_trace w' = w_trace w ++ tr /\
        is_Some (shared_memory w') /\
        w_time w + 1 <= w_time w' <= w_time w + 2 /\
        count is_wait tr = 0%nat /\
        ((p = child_pid /\ count is_kill tr = 0%nat) \/
         (0 < child_pid /\ p = 0 /\ count is_kill tr = 1%nat))
  | None =>
      exists w', worker_turn worker_id child_pid w = Fault w' /\
        w_trace w' = w_trace w
  end.
Proof.
  destruct (draw_random_shape_run worker_id w) as (s & w1 & _ & _ & Hdraw).
  unfold worker_turn.
  destruct (shared_memory w) as [c|].
  - unfold bind at 1.
    destruct Hdraw as (w2 & text & -> & Hm & Ht & _ & Htr).
    unfold bind at 1. unfold call_rand at 1.
    set (r1 := fst (rand (w_rng w2))). set (w3 := set_rng _ w2).
    assert (Hsleep : forall (p : Z) (w4 : World),
      exists w',
        (r <- call_rand ;; sleep (int_add 1 (Z.rem r 2)) ;;; ret p) w4 = Ret p w' /\
        w_trace w' = w_trace w4 ++ [Sleep (int_add 1 (Z.rem (fst (rand (w_rng w4))) 2))] /\
        shared_memory w' = shared_memory w4 /\
        w_time w4 + 1 <= w_time w' <= w_time w4 + 2).
    { intros p w4. eexists. split; [reflexivity|]. cbn.
      pose proof (sleep_secs_bound (fst (rand (w_rng w4))) (proj1 (rand_range _))).
      repeat split; lia. }
    destruct ((Z.rem r1 5 =? 0) && (child_pid >? 0)) eqn:Hkill.
    + destruct (Hsleep 0 (emit (Kill child_pid SIGTERM)
          (emit (Stdout ("Painter " +:+ pretty worker_id +:+ " killing its subprocess "
                         +:+ pretty child_pid +:+ newline)) w3)))
        as (w' & Hrun & Htr' & Hm' & Ht').
      eexists 0, w', _. unfold bind at 1. cbn [printf log kill ret bind].
      unfold bind in Hrun. split; [exact Hrun|].
      rewrite Htr'. cbn [w_trace emit set_rng w3]. rewrite Htr, <- !app_assoc.
      split; [reflexivity|]. rewrite Hm'. cbn [shared_memory emit set_rng w3].
      rewrite Hm. split; [done|].
      cbn [w_time emit set_rng w3] in Ht'. split; [lia|].
      split; [reflexivity|]. right.
      apply andb_true_iff in Hkill as [_ Hpos]. split; [lia|done].
    + destruct (Hsleep child_pid w3) as (w' & Hrun & Htr' & Hm' & Ht').
      eexists child_pid, w', _. unfold bind at 1. cbn [ret bind].
      unfold bind in Hrun. split; [exact Hrun|].
      rewrite Htr'. cbn [w_trace set_rng w3]. rewrite Htr, <- !app_assoc.
      split; [reflexivity|]. rewrite Hm'. cbn [shared_memory set_rng w3].
      rewrite Hm. split; [done|].
      cbn [w_time set_rng w3] in Ht'. split; [lia|].
      split; [reflexivity|]. by left.
  - unfold bind at 1. destruct Hdraw as (w' & -> & Htr). by exists w'.
Qed.

Lemma worker_loop_unfold (fuel : nat) (worker_id start timeout child_pid : Z) (w : World) :
  worker_loop fuel worker_id start timeout child_pid w =
  if w_time w - start <? timeout then
    match fuel with
    | O => OutOfFuel w
    | S fuel' =>
        (child_pid <- worker_turn worker_id child_pid ;;
         worker_loop fuel' worker_id start timeout child_pid) w
    end
  else Ret child_pid w.
Proof.
  destruct fuel; cbn [worker_loop]; unfold bind at 1; unfold time;
    by destruct (_ <? _).
Qed.

(** The events of the loop, however it ends: no wait, and at most one
    signal, sent only when the worker entered the loop with a live child
    and in that case leaving the loop with [child_pid = 0]. *)
Lemma worker_loop_trace (fuel : nat) (worker_id start timeout child_pid : Z) (w : World) :
  exists tr,
    w_trace (final_world (worker_loop fuel worker_id start timeout child_pid w))
    = w_trace w ++ tr /\
    count is_wait tr = 0%nat /\
    ((count is_kill tr = 0%nat /\
      forall p w', worker_loop fuel worker_id start timeout child_pid w = Ret p w' ->
                   p = child_pid) \/
     (0 < child_pid /\ count is_kill tr = 1%nat /\
      forall p w', worker_loop fuel worker_id start timeout child_pid w = Ret p w' ->
                   p = 0)).
Proof.
  revert child_pid w. induction fuel as [|fuel IH]; intros child_pid w;
    rewrite worker_loop_unfold; destruct (w_time w - start <? timeout).
  - exists []. rewrite app_nil_r. split; [done|]. split; [done|]. by left.
  - exists []. rewrite app_nil_r. split; [done|]. split; [done|]. left.
    split; [done|]. by intros p w' [= <- _].
  - pose proof (worker_turn_run worker_id child_pid w) as Hturn.
    unfold bind. destruct (shared_memory w) as [c|].
    + destruct Hturn as (p & w1 & tr1 & -> & Htr1 & _ & _ & Hw1 & Hk1).
      destruct (IH p w1) as (tr2 & Htr2 & Hw2 & Hk2).
      exists (tr1 ++ tr2). rewrite Htr2, Htr1, <- app_assoc.
      split; [done|]. rewrite !count_app, Hw1, Hw2. split; [done|].
      destruct Hk1 as [[-> Hk1]|(Hpos & -> & Hk1)]; rewrite Hk1.
      * destruct Hk2 as [[Hk2 Hret]|(Hpos & Hk2 & Hret)]; rewrite Hk2.
        -- by left.
        -- right. done.
      * destruct Hk2 as [[Hk2 Hret]|(Hpos' & _)]; [|lia]. rewrite Hk2.
        right. done.
    + destruct Hturn as (w' & -> & Htr). exists []. cbn [final_world].
      rewrite Htr, app_nil_r. split; [done|]. split; [done|]. by left.
  - exists []. rewrite app_nil_r. split; [done|]. split; [done|]. left.
    split; [done|]. by intros p w' [= <- _].
Qed.

(** With a canvas to draw on, enough fuel lets the loop run until the
    budget is used up. *)
Lemma worker_loop_terminates (fuel : nat) (worker_id start timeout child_pid : Z) (w : World) :
  is_Some (shared_memory w) ->
  timeout - (w_time w - start) <= Z.of_nat fuel ->
  exists p w', worker_loop fuel worker_id start timeout child_pid w = Ret p w' /\
    timeout <= w_time w' - start /\ w_time w <= w_time w'.
Proof.
  revert child_pid w. induction fuel as [|fuel IH]; intros child_pid w [c Hc] Hfuel;
    rewrite worker_loop_unfold; destruct (Z.ltb_spec (w_time w - start) timeout) as [Hlt|Hge];
    try lia; try (exists child_pid, w; split; [done|lia]).
  pose proof (worker_turn_run worker_id child_pid w) as Hturn. rewrite Hc in Hturn.
  destruct Hturn as (p & w1 & tr1 & Hrun & _ & Hm1 & Ht1 & _).
  unfold bind. rewrite Hrun.
  destruct (IH p w1 Hm1) as (p' & w' & Hloop & Hdone & Hmono); [lia|].
  exists p', w'. split; [done|]. lia.
Qed.

(** The trace of [worker_process]: the events it adds to the trace of [w]. *)
Lemma worker_process_trace (worker_id timeout : Z) (w : World) :
  exists tr,
    w_trace (final_world (worker_process worker_id timeout w)) = w_trace w ++ tr /\
    (count is_kill tr <= 1)%nat /\
    (count is_kill tr = 1%nat -> count is_wait tr = 0%nat) /\
    (forall pid w1, fork w = Ret pid w1 -> pid < 0 ->
       count is_kill tr = 0%nat /\ count is_wait tr = 0%nat).
Proof.
  unfold worker_process. unfold bind at 1. unfold time.
  unfold bind at 1.
  assert (Hfork : exists pid w1, fork w = Ret pid w1 /\ w_trace w1 = w_trace w).
  { unfold fork. destruct (w_forks w); by eexists _, _. }
  destruct Hfork as (pid & w1 & Hfork & Htr1). rewrite Hfork.
  unfold bind at 1.
  destruct (Z.eqb_spec pid 0) as [->|Hne].
  - unfold bind, execv, perror, log, exit. destruct (w_execv_ok w1).
    + exists [Execv "/bin/echo" ["/bin/echo"; "Painter subprocess drawing..."]%string].
      cbn. rewrite Htr1. split; [done|]. split; [lia|]. split; [done|].
      intros pid' w' [= <- _]. lia.
    + exists [Perror "execv failed"]. cbn. rewrite Htr1.
      split; [done|]. split; [lia|]. split; [done|].
      intros pid' w' [= <- _]. lia.
  - destruct (Z.gtb_spec pid 0) as [Hpos|Hneg].
    + destruct (worker_loop_trace (Z.to_nat timeout) worker_id (w_time w) timeout pid w1)
        as (tr & Htr & Hw & Hk).
      unfold bind at 1.
      destruct (worker_loop _ _ _ _ _ w1) as [p w2|st w2|w2|w2] eqn:Hloop;
        cbn [final_world] in Htr.
      * destruct Hk as [[Hk Hret]|(_ & Hk & Hret)]; specialize (Hret p w2 eq_refl); subst p.
        -- destruct (Z.gtb_spec pid 0) as [_|]; [|lia].
           unfold bind, wait, ret, exit.
           destruct (w_waits w2).
           ++ exists (tr ++ [Wait]). cbn. rewrite Htr, Htr1, <- app_assoc.
              split; [done|]. rewrite !count_app, Hk, Hw. cbn.
              split; [lia|]. split; [lia|]. intros pid' w' [= <- _]. lia.
           ++ exists (tr ++ [Wait]). cbn. rewrite Htr, Htr1, <- app_assoc.
              split; [done|]. rewrite !count_app, Hk, Hw. cbn.
              split; [lia|]. split; [lia|]. intros pid' w' [= <- _]. lia.
        -- cbn. exists tr. rewrite Htr, Htr1. split; [done|]. rewrite Hk, Hw.
           split; [lia|]. split; [done|]. intros pid' w' [= <- _]. lia.
      * exists tr. cbn. rewrite Htr, Htr1. split; [done|]. rewrite Hw.
        split; [destruct Hk as [[-> _]|(_ & -> & _)]; lia|]. split; [done|].
        intros pid' w' [= <- _]. lia.
      * exists tr. cbn. rewrite Htr, Htr1. split; [done|]. rewrite Hw.
        split; [destruct Hk as [[-> _]|(_ & -> & _)]; lia|]. split; [done|].
        intros pid' w' [= <- _]. lia.
      * exists tr. cbn. rewrite Htr, Htr1. split; [done|]. rewrite Hw.
        split; [destruct Hk as [[-> _]|(_ & -> & _)]; lia|]. split; [done|].
        intros pid' w' [= <- _]. lia.
    + exists [Perror "fork failed"]. cbn. rewrite Htr1.
      split; [done|]. split; [lia|]. done.
Qed.

Lemma count_zero_Forall (p : event -> bool) (tr : list event) :
  count p tr = 0%nat -> Forall (fun e => p e = false) tr.
Proof.
  unfold count. induction tr as [|e tr IH]; [constructor|].
  simpl. destruct (p e) eqn:Hp; [done|]. intros Hz. constructor; auto.
Qed.

(** C9: in the events a worker adds to its trace, nothing follows a
    cancellation signal but output and sleeps: no second signal is sent and
    the child is never waited for; and when the sub-task could not be
    started there is no signal and no wait at all. *)
Theorem subtask_cancelled_once (worker_id timeout : Z) (w : World) :
  exists tr,
    w_trace (final_world (worker_process worker_id timeout w)) = w_trace w ++ tr /\
    (forall (pre post : list event) (pid sig : Z),
       tr = pre ++ Kill pid sig :: post ->
       Forall (fun e => is_kill e = false /\ is_wait e = false) post) /\
    (forall (pid : Z) (w1 : World), fork w = Ret pid w1 -> pid < 0 ->
       Forall (fun e => is_kill e = false /\ is_wait e = false) tr).
Proof.
  destruct (worker_process_trace worker_id timeout w) as (tr & Htr & Hle & Hkw & Hnone).
  exists tr. split; [exact Htr|]. split.
  - intros pre post pid sig ->.
    change (Kill pid sig :: post) with ([Kill pid sig] ++ post) in Hle, Hkw.
    rewrite !count_app in Hle, Hkw.
    change (count is_kill [Kill pid sig]) with 1%nat in Hle, Hkw.
    assert (Hk : count is_kill post = 0%nat) by lia.
    assert (Hw : count is_wait post = 0%nat).
    { assert (Hw0 : count is_wait (pre ++ [Kill pid sig] ++ post) = 0%nat)
        by (apply Hkw; lia).
      rewrite !count_app in Hw0. lia. }
    apply count_zero_Forall in Hk, Hw. rewrite Forall_forall in Hk, Hw.
    apply Forall_forall. intros e He. split; auto.
  - intros pid w1 Hfork Hneg. destruct (Hnone pid w1 Hfork Hneg) as [Hk Hw].
    apply count_zero_Forall in Hk, Hw. rewrite Forall_forall in Hk, Hw.
    apply Forall_forall. intros e He. split; auto.
Qed.

(** A worker whose sub-task started, and which has a canvas to draw on,
    runs for its full budget. *)
Lemma worker_with_subtask_runs (worker_id timeout pid : Z) (w w1 : World) :
  fork w = Ret pid w1 -> 0 < pid -> is_Some (shared_memory w) ->
  runs_full_budget worker_id timeout w.
Proof.
  intros Hfork Hpos Hm. unfold runs_full_budget, worker_process.
  unfold bind at 1. unfold time. unfold bind at 1. rewrite Hfork.
  assert (Hw1 : w_time w1 = w_time w /\ shared_memory w1 = shared_memory w).
  { unfold fork in Hfork. destruct (w_forks w); by injection Hfork as _ <-. }
  destruct Hw1 as [Ht1 Hm1].
  destruct (Z.eqb_spec pid 0) as [|_]; [lia|].
  destruct (Z.gtb_spec pid 0) as [_|]; [|lia].
  destruct (worker_loop_terminates (Z.to_nat timeout) worker_id (w_time w) timeout pid w1)
    as (p & w2 & Hloop & Hdone & _); [by rewrite Hm1|lia|].
  unfold bind at 1. unfold bind at 1. rewrite Hloop.
  destruct (p >? 0).
  - unfold bind, wait, ret, exit.
    destruct (w_waits w2); eexists; (split; [reflexivity|]); cbn; lia.
  - unfold bind, ret, exit. eexists. split; [reflexivity|]. lia.
Qed.


(** A worker whose [fork] fails reports it and exits. *)
Lemma worker_process_fork_failed (worker_id timeout pid : Z) (w w1 : World) :
  fork w = Ret pid w1 -> pid < 0 ->
  worker_process worker_id timeout w = Exited 0 (emit (Perror "fork failed") w1).
Proof.
  intros Hfork Hneg. unfold worker_process.
  unfold bind at 1. unfold time. unfold bind at 1. rewrite Hfork.
  destruct (Z.eqb_spec pid 0) as [|_]; [lia|].
  destruct (Z.gtb_spec pid 0) as [|_]; [lia|]. reflexivity.
Qed.

(** C2, as the code has it: a worker whose sub-task cannot be started
    reports [fork failed] and ends at once with exit status 0; it draws no
    shape and lets no time pass, and the failure is its only new event. *)
Theorem worker_without_subtask_exits (worker_id timeout pid : Z) (w w1 : World) :
  fork w = Ret pid w1 -> pid < 0 ->
  exists w', worker_process worker_id timeout w = Exited 0 w' /\
    w_trace w' = w_trace w ++ [Perror "fork failed"] /\
    shared_memory w' = shared_memory w /\
    w_time w' = w_time w.
Proof.
  intros Hfork Hneg. eexists. split; [by eapply worker_process_fork_failed|].
  unfold fork in Hfork. destruct (w_forks w); by injection Hfork as _ <-.
Qed.

(** *** The parent process *)

(** C3, on the code: when the segment cannot be allocated, [main] does not
    report it and abort; it faults in [clear_canvas], having written
    nothing, to the standard output or as a diagnostic, and having called
    [fork] not once. *)
Theorem main_alloc_failure_faults (w : World) :
  w_shmget w < 0 ->
  exists w', main w = Fault w' /\
    w_trace w' = w_trace w /\ w_forks w' = w_forks w.
Proof.
  intros Hneg. unfold main.
  unfold bind at 1. unfold time.
  unfold bind at 1. unfold call_srand.
  unfold bind at 1. unfold shmget. cbn [w_shmget set_rng].
  unfold bind at 1. unfold shmat.
  destruct (Z.ltb_spec (w_shmget w) 0) as [_|]; [|lia].
  unfold bind at 1. unfold call_clear_canvas, with_canvas.
  cbn [shared_memory set_shared_memory].
  eexists. split; [reflexivity|]. done.
Qed.

(** The launch loop on a failing launch: the workers launched so far are
    announced, the failure is reported, and the process exits with status
    1 without a signal or a wait. *)
Lemma launch_workers_fails (w : World) :
  launch_fails MAX_WORKERS (w_forks w) = true ->
  exists w' tr, launch_workers w = Exited 1 w' /\
    w_trace w' = w_trace w ++ tr /\
    count is_kill tr = 0%nat /\ count is_wait tr = 0%nat /\
    last tr = Some (Perror "fork failed").
Proof.
  unfold launch_workers, MAX_WORKERS. cbn [for_proc launch_fails].
  unfold bind at 1. unfold bind at 1. unfold ret at 1.
  unfold bind at 1. unfold fork at 1.
  destruct (w_forks w) as [|p1 rest] eqn:Hforks.
  - intros _. exists (emit (Perror "fork failed") w), [Perror "fork failed"]. done.
  - destruct (Z.ltb_spec p1 0) as [Hneg1|Hnn1].
    + intros _. destruct (Z.eqb_spec p1 0) as [|_]; [lia|].
      destruct (Z.gtb_spec p1 0) as [|_]; [lia|].
      eexists _, [Perror "fork failed"]. split; [reflexivity|]. done.
    + destruct (Z.eqb_spec p1 0) as [|Hne1]; [done|].
      destruct (Z.gtb_spec p1 0) as [_|]; [|lia].
      unfold bind at 1. unfold bind at 1. unfold printf at 1, log at 1.
      unfold bind at 1. unfold usleep at 1, log at 1. unfold ret at 1.
      unfold bind at 1. unfold fork at 1. cbn [w_forks emit set_forks].
      destruct rest as [|p2 rest'].
      * intros _. eexists _, _. split; [reflexivity|]. cbn [w_trace emit set_forks].
        rewrite <- !app_assoc. split; [reflexivity|]. done.
      * destruct (Z.ltb_spec p2 0) as [Hneg2|Hnn2].
        -- intros _. destruct (Z.eqb_spec p2 0) as [|_]; [lia|].
           destruct (Z.gtb_spec p2 0) as [|_]; [lia|].
           eexists _, _. split; [reflexivity|]. cbn [w_trace emit set_forks].
           rewrite <- !app_assoc. split; [reflexivity|]. done.
        -- by destruct (Z.eqb_spec p2 0).
Qed.

(** C4, as the code has it: when a launch fails and the canvas was
    allocated, [main] reports [fork failed] and exits at once with status
    1; between the start of the run and the exit it sends no signal and
    waits for no child, so the workers launched before are left running. *)
Theorem main_launch_failure_exits (w : World) :
  0 <= w_shmget w ->
  launch_fails MAX_WORKERS (w_forks w) = true ->
  exists w' tr, main w = Exited 1 w' /\
    w_trace w' = w_trace w ++ tr /\
    count is_kill tr = 0%nat /\ count is_wait tr = 0%nat /\
    last tr = Some (Perror "fork failed").
Proof.
  intros Hshm Hfail. unfold main.
  unfold bind at 1. unfold time.
  unfold bind at 1. unfold call_srand.
  unfold bind at 1. unfold shmget. cbn [w_shmget set_rng].
  unfold bind at 1. unfold shmat.
  destruct (Z.ltb_spec (w_shmget w) 0) as [|_]; [lia|].
  unfold bind at 1. unfold call_clear_canvas, with_canvas.
  cbn [shared_memory set_shared_memory set_rng].
  unfold bind at 1. unfold call_print_canvas at 1.
  cbn [shared_memory set_shared_memory set_rng].
  unfold bind at 1. unfold printf at 1, log at 1.
  unfold bind at 1.
  match goal with
  | |- context [launch_workers ?w0] =>
      destruct (launch_workers_fails w0) as (w' & tr & Hrun & Htr & Hk & Hw & Hlast);
        [exact Hfail|]; rewrite Hrun
  end.
  eexists w', (_ :: _ :: tr). split; [reflexivity|].
  rewrite Htr. cbn [w_trace emit set_shared_memory set_rng].
  rewrite <- !app_assoc. split; [reflexivity|].
  split; [exact Hk|]. split; [exact Hw|].
  destruct tr as [|e tr]; [done|]. exact Hlast.
Qed.

End ProcessProps.

(** * Properties of the cell layer *)

Lemma for_upto_rel {A B : Type} (R : A -> B -> Prop) (n : nat)
    (f : nat -> A -> A) (g : nat -> B -> B) (a : A) (b : B) :
  R a b ->
  (forall k a b, (k < n)%nat -> R a b -> R (f k a) (g k b)) ->
  R (for_upto n f a) (for_upto n g b).
Proof.
  intros Hab Hstep. induction n as [|n IH]; [done|].
  simpl. apply Hstep; [lia|]. apply IH. intros k a' b' Hk. apply Hstep. lia.
Qed.

Lemma for_upto_inv {A : Type} (P : A -> Prop) (n : nat) (f : nat -> A -> A) (a : A) :
  P a ->
  (forall k a, (k < n)%nat -> P a -> P (f k a)) ->
  P (for_upto n f a).
Proof.
  intros Ha Hstep.
  apply (for_upto_rel (fun a (_ : unit) => P a) n f (fun _ u => u) a tt); auto.
Qed.

Lemma run_accesses_snoc (l : list access) (a : access) (st : canvas * list ascii) :
  run_accesses (l ++ [a]) st = access_step (run_accesses l st) a.
Proof. unfold run_accesses. by rewrite fold_left_app. Qed.

(** Run alone, the stores of the drawing loop make [apply_shape]. *)
Lemma draw_accesses_apply (s : Shape) (c : canvas) (out : list ascii) :
  run_accesses (draw_accesses s) (c, out) = (apply_shape s c, out).
Proof.
  unfold draw_accesses, apply_shape. generalize ART_HEIGHT, ART_WIDTH. intros m n.
  apply (for_upto_rel (fun acc c' => run_accesses acc (c, out) = (c', out))); [done|].
  intros y acc c' _ Hacc.
  apply (for_upto_rel (fun acc c' => run_accesses acc (c, out) = (c', out))); [done|].
  intros x acc' c'' _ Hacc'. destruct (in_radius s y x); [|done].
  by rewrite run_accesses_snoc, Hacc'.
Qed.

Lemma print_accesses_cells : print_accesses = map (fun p => Read (fst p) (snd p)) grid_cells.
Proof.
  unfold print_accesses, grid_cells. generalize ART_HEIGHT, ART_WIDTH. intros m n.
  apply (for_upto_rel (fun acc ps => acc = map (fun p => Read (fst p) (snd p)) ps)); [done|].
  intros y acc ps _ ->.
  apply (for_upto_rel (fun acc ps => acc = map (fun p => Read (fst p) (snd p)) ps)); [done|].
  intros x acc ps' _ ->. by rewrite map_app.
Qed.

(** Run alone, the loads of [print_canvas] read the canvas. *)
Lemma run_reads (c : canvas) (ps : list (nat * nat)) (out : list ascii) :
  run_accesses (map (fun p => Read (fst p) (snd p)) ps) (c, out)
  = (c, out ++ map (fun p => canvas_at c (fst p) (snd p)) ps).
Proof.
  revert out. induction ps as [|p ps IH]; intros out; simpl; [by rewrite app_nil_r|].
  unfold run_accesses in IH. rewrite IH. by rewrite <- app_assoc.
Qed.

Lemma print_accesses_chars (c : canvas) :
  run_accesses print_accesses (c, []) = (c, canvas_chars c).
Proof. rewrite print_accesses_cells. apply run_reads. Qed.

(** Every store of the drawing loop writes the symbol of the shape to a
    cell of the grid that passes the radius test. *)
Lemma draw_accesses_writes (s : Shape) :
  Forall (fun a => exists y x : nat, a = Write y x (color s) /\
                     in_radius s y x = true /\
                     (y < ART_HEIGHT)%nat /\ (x < ART_WIDTH)%nat)
         (draw_accesses s).
Proof.
  unfold draw_accesses.
  apply for_upto_inv; [constructor|]. intros y acc Hy Hacc.
  apply for_upto_inv; [done|]. intros x acc' Hx Hacc'.
  destruct (in_radius s y x) eqn:Hin; [|done].
  apply Forall_app. split; [done|]. constructor; [|constructor]. by exists y, x.
Qed.

Lemma set_cell_cell (c : canvas) (y0 x0 y x : nat) (v : ascii) :
  cell (set_cell c y0 x0 v) y x =
  if decide (y0 = y /\ x0 = x) then (fun _ => v) <$> cell c y x else cell c y x.
Proof.
  unfold cell, set_cell. rewrite list_lookup_alter.
  destruct (decide (y0 = y)) as [->|Hy].
  - destruct (c !! y) as [row|]; simpl; [|by destruct (decide _)].
    rewrite list_lookup_insert.
    destruct (decide (x0 = x)) as [->|Hx].
    + destruct (decide (y = y /\ x = x)) as [_|Hn]; [|tauto].
      destruct (decide _) as [[_ Hlt]|Hge].
      * apply lookup_lt_is_Some_2 in Hlt as [ch ->]. done.
      * rewrite lookup_ge_None_2 by lia. done.
    + destruct (decide (y = y /\ x0 = x)) as [Hn|_]; [tauto|].
      destruct (decide (x0 = x /\ _)) as [Hn|_]; [tauto|]. done.
  - destruct (decide (y0 = y /\ x0 = x)) as [Hn|_]; [tauto|]. done.
Qed.

Lemma set_cell_wf (c : canvas) (y x : nat) (v : ascii) :
  canvas_wf c -> canvas_wf (set_cell c y x v).
Proof.
  intros [Hlen Hrows]. unfold set_cell. split; [by rewrite length_alter|].
  apply Forall_lookup_2. intros y' row. rewrite list_lookup_alter.
  rewrite Forall_lookup in Hrows.
  destruct (decide (y = y')) as [->|]; [|by apply Hrows].
  destruct (c !! y') as [row'|] eqn:Hrow; [|done]. simpl. intros [= <-].
  rewrite length_insert. eauto.
Qed.

Lemma run_accesses_fst (l : list access) (st st' : canvas * list ascii) :
  fst st = fst st' -> fst (run_accesses l st) = fst (run_accesses l st').
Proof.
  revert st st'. induction l as [|a l IH]; intros st st' Heq; [done|].
  simpl. apply IH. destruct a; simpl; by rewrite Heq.
Qed.

(** The loads of the printer do not change the canvas: at the end of any
    schedule the canvas is what the drawing alone makes of it. *)
Lemma interleave_reads_fst (D : list access) (ps : list (nat * nat))
    (sched : list access) (st : canvas * list ascii) :
  interleave D (map (fun p => Read (fst p) (snd p)) ps) sched ->
  fst (run_accesses sched st) = fst (run_accesses D st).
Proof.
  remember (map (fun p => Read (fst p) (snd p)) ps) as P eqn:HP.
  intros Hi. revert ps HP st.
  induction Hi as [|a l1 l2 l Hi IH|a l1 l2 l Hi IH]; intros ps HP st; [done| |].
  - simpl. by apply (IH ps).
  - destruct ps as [|p ps]; [done|]. injection HP as -> ->.
    simpl. rewrite (IH ps eq_refl). by apply run_accesses_fst.
Qed.

(** In any schedule, each character the printer reads is the one the cell
    held before the drawing or the one it holds after it. *)
Lemma interleave_reads_old_or_new (s : Shape) (c : canvas) (D : list access)
    (ps : list (nat * nat)) (sched : list access) (c' : canvas) (out : list ascii) :
  canvas_wf c ->
  Forall (fun a => exists y x : nat, a = Write y x (color s) /\
                     in_radius s y x = true /\
                     (y < ART_HEIGHT)%nat /\ (x < ART_WIDTH)%nat) D ->
  interleave D (map (fun p => Read (fst p) (snd p)) ps) sched ->
  canvas_wf c' ->
  (forall y x, canvas_at c' y x = canvas_at c y x \/
               canvas_at c' y x = canvas_at (apply_shape s c) y x) ->
  exists out',
    snd (run_accesses sched (c', out)) = out ++ out' /\
    Forall2 (fun ch p => ch = canvas_at c (fst p) (snd p) \/
                         ch = canvas_at (apply_shape s c) (fst p) (snd p)) out' ps.
Proof.
  intros Hwf HD. remember (map (fun p => Read (fst p) (snd p)) ps) as P eqn:HP.
  intros Hi. revert ps HP c' out HD.
  induction Hi as [|a l1 l2 l Hi IH|a l1 l2 l Hi IH]; intros ps HP c' out HD Hwf' Hinv.
  - destruct ps; [|done]. exists []. simpl. rewrite app_nil_r. split; [done|constructor].
  - apply Forall_cons in HD as [(y0 & x0 & -> & Hin & Hy0 & Hx0) HD].
    simpl. apply (IH ps HP); [done|by apply set_cell_wf|].
    intros y x. unfold canvas_at at 1 3. rewrite set_cell_cell.
    destruct (decide (y0 = y /\ x0 = x)) as [[<- <-]|Hne]; [|apply Hinv].
    right. destruct (wf_cell_is_Some c' y0 x0 Hwf' Hy0 Hx0) as [ch ->].
    destruct (wf_cell_is_Some c y0 x0 Hwf Hy0 Hx0) as [ch' Hch].
    unfold canvas_at. rewrite apply_shape_cell, Hin, Hch.
    apply Nat.ltb_lt in Hy0 as ->. apply Nat.ltb_lt in Hx0 as ->. done.
  - destruct ps as [|p ps]; [done|]. injection HP as -> ->.
    simpl. destruct (IH ps eq_refl c' (out ++ [canvas_at c' (fst p) (snd p)]) HD Hwf' Hinv)
      as (out' & Hrun & Hall).
    exists (canvas_at c' (fst p) (snd p) :: out').
    rewrite Hrun, <- app_assoc. split; [done|]. constructor; [apply Hinv|done].
Qed.

(** C5, as the code has it: the stores of a drawing and the loads of a
    print are not ordered against each other.  Under every schedule the
    canvas ends as the drawn canvas and each character printed is the one
    its cell held before the drawing or holds after it; the print as a
    whole need not be either canvas. *)
Theorem interleaved_snapshot_cells (s : Shape) (c : canvas) (sched : list access) :
  canvas_wf c ->
  interleave (draw_accesses s) print_accesses sched ->
  fst (run_accesses sched (c, [])) = apply_shape s c /\
  Forall2 (fun ch p => ch = canvas_at c (fst p) (snd p) \/
                       ch = canvas_at (apply_shape s c) (fst p) (snd p))
          (snd (run_accesses sched (c, []))) grid_cells.
Proof.
  intros Hwf Hi. rewrite print_accesses_cells in Hi. split.
  - rewrite (interleave_reads_fst _ _ _ _ Hi). by rewrite draw_accesses_apply.
  - destruct (interleave_reads_old_or_new s c _ _ _ c [] Hwf (draw_accesses_writes s) Hi Hwf)
      as (out' & -> & Hall); [by left|]. done.
Qed.

Lemma interleave_right_all {A : Type} (l : list A) : interleave [] l l.
Proof. induction l; by constructor. Qed.

Lemma interleave_left_first {A : Type} (l1 l2 : list A) : interleave l1 l2 (l1 ++ l2).
Proof.
  induction l1 as [|a l1 IH]; [apply interleave_right_all|].
  rewrite <- app_comm_cons. by constructor.
Qed.

Lemma interleave_take_drop {A : Type} (l1 l2 : list A) (k : nat) :
  interleave l1 l2 (take k l2 ++ l1 ++ drop k l2).
Proof.
  revert k. induction l2 as [|a l2 IH]; intros k.
  - rewrite take_nil, drop_nil. apply (interleave_left_first l1 []).
  - destruct k as [|k].
    + rewrite take_0, drop_0. apply (interleave_left_first l1 (a :: l2)).
    + rewrite firstn_cons, skipn_cons, <- app_comm_cons. constructor. apply IH.
Qed.

Lemma preempted_print_interleave (s : Shape) (k : nat) :
  interleave (draw_accesses s) print_accesses (preempted_print s k).
Proof. apply interleave_take_drop. Qed.

(** * Further properties of the canvas layer *)

(** X1: clearing erases any drawing: a cleared canvas is the same whether
    or not a shape was drawn on it before, for every shape and canvas. *)
Theorem clear_after_draw (s : Shape) (c : canvas) :
  clear_canvas (apply_shape s c) = clear_canvas c.
Proof.
  rewrite (clear_canvas_fill c), (clear_canvas_fill (apply_shape s c)), apply_shape_fill.
  apply list_eq. intros y.
  rewrite !fill_lookup. destruct (y <? ART_HEIGHT)%nat; [|done].
  destruct (c !! y) as [row|]; [|done]. cbn [fmap option_fmap option_map]. f_equal.
  apply list_eq. intros x. rewrite !fill_row_lookup, andb_true_r.
  destruct (x <? ART_WIDTH)%nat; [|done]. cbn [andb].
  destruct (in_radius s y x); [|done]. by destruct (row !! x).
Qed.

(** X2: the later of two drawings wins.  After [s1] and then [s2] are
    drawn, a cell of the grid shows the symbol of [s2] if it passes the
    radius test of [s2], else the symbol of [s1] if it passes that of
    [s1], else what it showed before. *)
Theorem apply_shape_twice_cell (s1 s2 : Shape) (c : canvas) (y x : nat) :
  canvas_wf c -> (y < ART_HEIGHT)%nat -> (x < ART_WIDTH)%nat ->
  cell (apply_shape s2 (apply_shape s1 c)) y x =
  Some (if in_radius s2 y x then color s2
        else if in_radius s1 y x then color s1
        else canvas_at c y x).
Proof.
  intros Hwf Hy Hx. rewrite !apply_shape_cell. unfold canvas_at.
  destruct (wf_cell_is_Some c y x Hwf Hy Hx) as [ch ->].
  apply Nat.ltb_lt in Hy as ->. apply Nat.ltb_lt in Hx as ->. cbn [andb].
  by destruct (in_radius s2 y x), (in_radius s1 y x).
Qed.

(** X3: two drawings commute unless they disagree on a cell: when every
    cell of the grid that passes both radius tests gets the same symbol
    from both shapes, the order of the two drawings does not matter. *)
Theorem apply_shape_commute (s1 s2 : Shape) (c : canvas) :
  (forall y x : nat, (y < ART_HEIGHT)%nat -> (x < ART_WIDTH)%nat ->
     in_radius s1 y x = true -> in_radius s2 y x = true -> color s1 = color s2) ->
  apply_shape s1 (apply_shape s2 c) = apply_shape s2 (apply_shape s1 c).
Proof.
  intros Hagree. rewrite !apply_shape_fill. apply list_eq. intros y.
  rewrite !fill_lookup. destruct (Nat.ltb_spec y ART_HEIGHT) as [Hy|Hy]; [|done].
  destruct (c !! y) as [row|]; [|done]. cbn [fmap option_fmap option_map]. f_equal.
  apply list_eq. intros x. rewrite !fill_row_lookup.
  destruct (Nat.ltb_spec x ART_WIDTH) as [Hx|Hx]; [|done]. cbn [andb].
  destruct (in_radius s1 y x) eqn:H1, (in_radius s2 y x) eqn:H2; try done.
  destruct (row !! x); [|done]. cbn [fmap option_fmap option_map].
  by rewrite (Hagree y x Hy Hx H1 H2).
Qed.

(** *** The printed text *)

Lemma list_ascii_of_string_app (s1 s2 : string) :
  list_ascii_of_string (s1 +:+ s2) = list_ascii_of_string s1 ++ list_ascii_of_string s2.
Proof. induction s1 as [|ch s1 IH]; [done|]. simpl. by f_equal. Qed.

Lemma putchar_loop (f : nat -> ascii) (n : nat) (out : string) :
  list_ascii_of_string (for_upto n (fun x out => putchar (f x) out) out)
  = list_ascii_of_string out ++ map f (seq 0 n).
Proof.
  induction n as [|n IH]; [by rewrite app_nil_r|].
  cbn [for_upto]. unfold putchar at 1. rewrite list_ascii_of_string_app, IH.
  rewrite seq_S, map_app, <- app_assoc. done.
Qed.

Lemma print_rows_loop (c : canvas) (m n : nat) (out : string) :
  list_ascii_of_string
    (for_upto m (fun y out =>
       putchar "010"%char
         (for_upto n (fun x out => putchar (canvas_at c y x) out) out)) out)
  = list_ascii_of_string out
    ++ List.concat (map (fun y => map (canvas_at c y) (seq 0 n) ++ ["010"%char]) (seq 0 m)).
Proof.
  induction m as [|m IH]; [by rewrite app_nil_r|].
  cbn [for_upto]. unfold putchar at 1.
  rewrite list_ascii_of_string_app, putchar_loop, IH.
  rewrite seq_S, map_app, concat_app. cbn [map List.concat].
  rewrite app_nil_r, <- !app_assoc. done.
Qed.

Lemma print_canvas_chars (c : canvas) :
  list_ascii_of_string (print_canvas c)
  = list_ascii_of_string banner_top
    ++ List.concat (map (row_chars c) (seq 0 ART_HEIGHT))
    ++ list_ascii_of_string banner_bottom.
Proof.
  unfold print_canvas, row_chars. generalize ART_HEIGHT, ART_WIDTH. intros m n.
  cbv zeta. rewrite !list_ascii_of_string_app.
  rewrite print_rows_loop, !list_ascii_of_string_app, <- !app_assoc. done.
Qed.

(** X4: the layout of the print.  For every canvas, of whatever
    dimensions, [print_canvas] writes the top banner, then [ART_HEIGHT]
    rows from the top, each as [ART_WIDTH] characters from the left
    followed by a newline, then the closing line: 814 characters in all. *)
Theorem print_canvas_layout (c : canvas) :
  list_ascii_of_string (print_canvas c)
  = list_ascii_of_string banner_top
    ++ List.concat (map (row_chars c) (seq 0 ART_HEIGHT))
    ++ list_ascii_of_string banner_bottom /\
  String.length (print_canvas c) = 814%nat.
Proof.
  split; [apply print_canvas_chars|].
  rewrite <- (string_of_list_ascii_of_string (print_canvas c)), print_canvas_chars.
  assert (Hlen : forall l, String.length (string_of_list_ascii l) = length l).
  { induction l as [|ch l IH]; [done|]. cbn. by rewrite IH. }
  rewrite Hlen, !length_app.
  assert (Hrows : forall ys, length (List.concat (map (row_chars c) ys))
                             = (length ys * S ART_WIDTH)%nat).
  { induction ys as [|y ys IH]; [done|]. cbn [map List.concat length].
    rewrite length_app, IH. unfold row_chars.
    rewrite length_app, length_map, length_seq. cbn [length]. lia. }
  rewrite Hrows, length_seq. reflexivity.
Qed.

Lemma canvas_at_ext (c1 c2 : canvas) :
  canvas_wf c1 -> canvas_wf c2 ->
  (forall y x : nat, (y < ART_HEIGHT)%nat -> (x < ART_WIDTH)%nat ->
     canvas_at c1 y x = canvas_at c2 y x) ->
  c1 = c2.
Proof.
  intros Hwf1 Hwf2 Hat. apply list_eq. intros y.
  destruct (Nat.lt_ge_cases y ART_HEIGHT) as [Hy|Hy].
  - destruct Hwf1 as [Hlen1 Hrows1], Hwf2 as [Hlen2 Hrows2].
    destruct (lookup_lt_is_Some_2 c1 y) as [r1 Hr1]; [lia|].
    destruct (lookup_lt_is_Some_2 c2 y) as [r2 Hr2]; [lia|].
    rewrite Hr1, Hr2. f_equal. rewrite Forall_lookup in Hrows1, Hrows2.
    pose proof (Hrows1 _ _ Hr1) as Hl1. pose proof (Hrows2 _ _ Hr2) as Hl2.
    apply list_eq. intros x. destruct (Nat.lt_ge_cases x ART_WIDTH) as [Hx|Hx].
    + specialize (Hat y x Hy Hx). unfold canvas_at, cell in Hat.
      rewrite Hr1, Hr2 in Hat. cbn [mbind option_bind] in Hat.
      destruct (lookup_lt_is_Some_2 r1 x) as [a1 Ha1]; [lia|].
      destruct (lookup_lt_is_Some_2 r2 x) as [a2 Ha2]; [lia|].
      rewrite Ha1, Ha2 in *. cbn in Hat. by rewrite Hat.
    + by rewrite !lookup_ge_None_2 by lia.
  - destruct Hwf1 as [Hlen1 _], Hwf2 as [Hlen2 _].
    by rewrite !lookup_ge_None_2 by lia.
Qed.

Lemma concat_rows_inj {A : Type} (f g : nat -> list A) (k : nat) (ys : list nat) :
  (forall y, length (f y) = k) -> (forall y, length (g y) = k) ->
  List.concat (map f ys) = List.concat (map g ys) ->
  forall y, y ∈ ys -> f y = g y.
Proof.
  intros Hf Hg. induction ys as [|y0 ys IH]; intros Heq y Hin.
  - by apply elem_of_nil in Hin.
  - cbn [map List.concat] in Heq.
    apply app_inj_1 in Heq as [H0 Hrest]; [|by rewrite Hf, Hg].
    apply elem_of_cons in Hin as [->|Hin]; [done|]. by apply IH.
Qed.

(** X5: a print loses nothing: two canvases of the declared dimensions
    that print the same text are the same canvas. *)
Theorem print_canvas_inj (c1 c2 : canvas) :
  canvas_wf c1 -> canvas_wf c2 ->
  print_canvas c1 = print_canvas c2 -> c1 = c2.
Proof.
  intros Hwf1 Hwf2 Heq. apply (f_equal list_ascii_of_string) in Heq.
  rewrite !print_canvas_chars in Heq.
  apply app_inv_head, app_inv_tail in Heq.
  apply canvas_at_ext; [done..|]. intros y x Hy Hx.
  assert (Hrow : row_chars c1 y = row_chars c2 y).
  { apply (concat_rows_inj _ _ (S ART_WIDTH) (seq 0 ART_HEIGHT)); [..|done|].
    - intros y'. unfold row_chars. rewrite length_app, length_map, length_seq.
      cbn [length]. lia.
    - intros y'. unfold row_chars. rewrite length_app, length_map, length_seq.
      cbn [length]. lia.
    - apply list_elem_of_In, in_seq. lia. }
  unfold row_chars in Hrow. apply app_inv_tail in Hrow.
  apply (proj1 map_ext_in_iff Hrow). apply in_seq. lia.
Qed.

(** * Further properties of the process layer *)

Section WorkerProps.

Context `{RandSource}.

(** One turn of the loop in full: it draws one shape on the canvas, sleeps
    once for one or two seconds, never waits and never forks, and signals
    the child at most once, in which case the child is no longer live. *)
Lemma worker_turn_full (worker_id child_pid : Z) (w : World) (c : canvas) :
  shared_memory w = Some c ->
  exists s p w2 w' tr,
    draw_random_shape worker_id w = Ret tt w2 /\
    shared_memory w2 = Some (apply_shape s c) /\
    worker_turn worker_id child_pid w = Ret p w' /\
    w_trace w' = w_trace w ++ tr /\
    shared_memory w' = Some (apply_shape s c) /\
    w_forks w' = w_forks w /\
    1 <= w_time w' - w_time w <= 2 /\
    count is_sleep tr = 1%nat /\
    count is_wait tr = 0%nat /\
    (count is_kill tr + live p = live child_pid)%nat.
Proof.
  intros Hc.
  destruct (draw_random_shape_run worker_id w) as (s & w1 & _ & _ & Hdraw).
  rewrite Hc in Hdraw. destruct Hdraw as (w2 & text & Hdraw & Hm & Ht & Hf & Htr).
  exists s. unfold worker_turn. unfold bind at 1. rewrite Hdraw.
  unfold bind at 1. unfold call_rand at 1.
  set (r1 := fst (rand (w_rng w2))). set (w3 := set_rng _ w2).
  pose proof (fun g => sleep_secs_bound (fst (rand g)) (proj1 (rand_range g))) as Hk.
  destruct ((Z.rem r1 5 =? 0) && (child_pid >? 0)) eqn:Hkill.
  - apply andb_true_iff in Hkill as [_ Hpos].
    eexists 0, w2, _, _. split; [done|]. split; [done|].
    split; [reflexivity|].
    cbn [w_trace w_time w_forks shared_memory w_rng emit set_rng set_time w3].
    rewrite Htr, Hm, Hf, Ht, <- !app_assoc. split; [reflexivity|].
    split; [done|]. split; [done|].
    split; [specialize (Hk (snd (rand (w_rng w2)))); lia|].
    unfold live. rewrite Hpos. done.
  - eexists child_pid, w2, _, _. split; [done|]. split; [done|].
    split; [reflexivity|].
    cbn [w_trace w_time w_forks shared_memory w_rng emit set_rng set_time w3].
    rewrite Htr, Hm, Hf, Ht, <- !app_assoc. split; [reflexivity|].
    split; [done|]. split; [done|].
    split; [specialize (Hk (snd (rand (w_rng w2)))); lia|].
    done.
Qed.

(** The loop in full, with a canvas to draw on and enough fuel: it ends
    once the budget is used up and at most one second late, each turn
    takes one or two seconds, the canvas stays reachable, and the child is
    signalled at most once and then no longer live. *)
Lemma worker_loop_full (fuel : nat) (worker_id start timeout child_pid : Z)
    (w : World) (c : canvas) :
  shared_memory w = Some c ->
  timeout - (w_time w - start) <= Z.of_nat fuel ->
  exists p w' tr c',
    worker_loop fuel worker_id start timeout child_pid w = Ret p w' /\
    w_trace w' = w_trace w ++ tr /\
    shared_memory w' = Some c' /\
    (reachable c -> reachable c') /\
    w_forks w' = w_forks w /\
    timeout <= w_time w' - start /\
    w_time w' - start <= Z.max (w_time w - start) (timeout + 1) /\
    Z.of_nat (count is_sleep tr) <= w_time w' - w_time w
      <= 2 * Z.of_nat (count is_sleep tr) /\
    Z.of_nat (count is_sleep tr) <= Z.max 0 (timeout - (w_time w - start)) /\
    count is_wait tr = 0%nat /\
    (count is_kill tr + live p = live child_pid)%nat.
Proof.
  revert child_pid w c. induction fuel as [|fuel IH]; intros child_pid w c Hc Hfuel;
    rewrite worker_loop_unfold;
    destruct (Z.ltb_spec (w_time w - start) timeout) as [Hlt|Hge]; try lia.
  - exists child_pid, w, [], c. rewrite app_nil_r. cbn [count List.filter length].
    repeat split; try done; lia.
  - destruct (worker_turn_full worker_id child_pid w c Hc)
      as (s & p & w2 & w1 & tr1 & Hdraw & Hm2 & Hturn & Htr1 & Hm1 & Hf1 & Ht1
          & Hs1 & Hw1 & Hk1).
    unfold bind. rewrite Hturn.
    destruct (IH p w1 (apply_shape s c) Hm1) as (p' & w' & tr2 & c' & Hloop & Htr2 & Hm'
      & Hreach & Hf' & Hdone & Hlate & Hturns & Hmost & Hw2 & Hk2); [lia|].
    exists p', w', (tr1 ++ tr2), c'. split; [done|].
    rewrite Htr2, Htr1, <- app_assoc. split; [done|]. split; [done|].
    split; [intros Hr; apply Hreach; by apply (reach_draw worker_id w w2 c)|].
    split; [congruence|]. split; [done|].
    rewrite !count_app, Hs1, Hw1, Hw2. repeat split; try lia.
  - exists child_pid, w, [], c. rewrite app_nil_r. cbn [count List.filter length].
    repeat split; try done; lia.
Qed.

(** What [fork] leaves of the world. *)
Lemma fork_world (w w1 : World) (pid : Z) :
  fork w = Ret pid w1 ->
  w_time w1 = w_time w /\ shared_memory w1 = shared_memory w /\
  w_trace w1 = w_trace w /\ w_execv_ok w1 = w_execv_ok w /\
  w_forks w1 = tail (w_forks w).
Proof. unfold fork. destruct (w_forks w) eqn:Hf; intros [= _ <-]; by rewrite ?Hf. Qed.

(** A worker whose sub-task started, with a canvas to draw on: how it
    ends, when, and what it did on the way. *)
Lemma worker_process_full (worker_id timeout pid : Z) (w w1 : World) (c : canvas) :
  fork w = Ret pid w1 -> 0 < pid -> shared_memory w = Some c ->
  exists w' tr c',
    worker_process worker_id timeout w = Exited 0 w' /\
    w_trace w' = w_trace w ++ tr /\
    shared_memory w' = Some c' /\
    (reachable c -> reachable c') /\
    w_forks w' = tail (w_forks w) /\
    timeout <= w_time w' - w_time w <= Z.max 0 (timeout + 1) /\
    Z.of_nat (count is_sleep tr) <= w_time w' - w_time w
      <= 2 * Z.of_nat (count is_sleep tr) /\
    Z.of_nat (count is_sleep tr) <= Z.max 0 timeout /\
    (count is_kill tr + count is_wait tr = 1)%nat.
Proof.
  intros Hfork Hpos Hc. unfold worker_process.
  unfold bind at 1. unfold time. unfold bind at 1. rewrite Hfork.
  destruct (fork_world w w1 pid Hfork) as (Ht1 & Hm1 & Htr1 & _ & Hf1).
  destruct (Z.eqb_spec pid 0) as [|_]; [lia|].
  destruct (Z.gtb_spec pid 0) as [_|]; [|lia].
  destruct (worker_loop_full (Z.to_nat timeout) worker_id (w_time w) timeout pid w1 c)
    as (p & w2 & tr & c' & Hloop & Htr & Hm & Hreach & Hf & Hdone & Hlate & Hturns
        & Hmost & Hw & Hk); [congruence|lia|].
  unfold bind at 1. unfold bind at 1. rewrite Hloop.
  assert (Hlive : live pid = 1%nat)
    by (unfold live; destruct (Z.gtb_spec pid 0); [done|lia]).
  rewrite Hlive in Hk. rewrite Ht1 in Hlate, Hturns, Hmost.
  unfold live in Hk. destruct (p >? 0).
  - unfold bind, wait, ret, exit.
    assert (Hend : forall w3, w_trace w3 = w_trace w2 -> shared_memory w3 = shared_memory w2 ->
              w_forks w3 = w_forks w2 -> w_time w3 = w_time w2 ->
              exists w' tr' c'0,
                Exited 0 (emit Wait w3) = Exited (A:=unit) 0 w' /\
                w_trace w' = w_trace w ++ tr' /\ shared_memory w' = Some c'0 /\
                (reachable c -> reachable c'0) /\ w_forks w' = tail (w_forks w) /\
                timeout <= w_time w' - w_time w <= Z.max 0 (timeout + 1) /\
                Z.of_nat (count is_sleep tr') <= w_time w' - w_time w
                  <= 2 * Z.of_nat (count is_sleep tr') /\
                Z.of_nat (count is_sleep tr') <= Z.max 0 timeout /\
                (count is_kill tr' + count is_wait tr' = 1)%nat).
    { intros w3 Htr3 Hm3 Hf3 Ht3. exists (emit Wait w3), (tr ++ [Wait]), c'.
      split; [done|]. cbn [w_trace shared_memory w_forks w_time emit].
      rewrite Htr3, Hm3, Hf3, Ht3, Htr, Htr1, <- app_assoc.
      split; [done|]. split; [done|]. split; [done|]. split; [congruence|].
      rewrite !count_app. cbn [count List.filter length is_sleep is_kill is_wait].
      rewrite Hw. repeat split; lia. }
    destruct (w_waits w2); by apply Hend.
  - unfold bind, ret, exit. exists w2, tr, c'. split; [done|].
    rewrite Htr, Htr1. split; [done|]. split; [done|]. split; [done|].
    split; [congruence|]. rewrite Hw. repeat split; lia.
Qed.

(** X6: a worker whose sub-task started, with a canvas to draw on and a
    budget of [timeout >= 0] seconds, ends with exit status 0 once the
    budget is used up and at most one second late; the number of its turns
    (one shape and one sleep each) lies between half the budget and the
    budget. *)
Theorem worker_runs_its_budget (worker_id timeout pid : Z) (w w1 : World) (c : canvas) :
  fork w = Ret pid w1 -> 0 < pid -> shared_memory w = Some c -> 0 <= timeout ->
  exists w' tr,
    worker_process worker_id timeout w = Exited 0 w' /\
    w_trace w' = w_trace w ++ tr /\
    timeout <= w_time w' - w_time w <= timeout + 1 /\
    Z.of_nat (count is_sleep tr) <= timeout <= 2 * Z.of_nat (count is_sleep tr).
Proof.
  intros Hfork Hpos Hc Htimeout.
  destruct (worker_process_full worker_id timeout pid w w1 c Hfork Hpos Hc)
    as (w' & tr & c' & Hrun & Htr & _ & _ & _ & Hend & Hturns & Hmost & _).
  exists w', tr. split; [done|]. split; [done|]. lia.
Qed.

(** X7: a worker whose sub-task started, with a canvas to draw on, either
    signals its child once or waits for it once before it exits: never
    both, and never neither. *)
Theorem worker_cancels_or_joins (worker_id timeout pid : Z) (w w1 : World) (c : canvas) :
  fork w = Ret pid w1 -> 0 < pid -> shared_memory w = Some c ->
  exists w' tr,
    worker_process worker_id timeout w = Exited 0 w' /\
    w_trace w' = w_trace w ++ tr /\
    (count is_kill tr + count is_wait tr = 1)%nat.
Proof.
  intros Hfork Hpos Hc.
  destruct (worker_process_full worker_id timeout pid w w1 c Hfork Hpos Hc)
    as (w' & tr & c' & Hrun & Htr & _ & _ & _ & _ & _ & _ & Hone).
  by exists w', tr.
Qed.

(** The two ends of the child that [fork] creates. *)
Lemma worker_process_child (worker_id timeout : Z) (w w1 : World) :
  fork w = Ret 0 w1 ->
  worker_process worker_id timeout w =
    (if w_execv_ok w
     then Exited 0 (emit (Execv "/bin/echo"
                            ["/bin/echo"; "Painter subprocess drawing..."]%string) w1)
     else Exited 1 (emit (Perror "execv failed") w1)).
Proof.
  intros Hfork. destruct (fork_world w w1 0 Hfork) as (_ & _ & _ & Hok & _).
  unfold worker_process.
  unfold bind at 1. unfold time. unfold bind at 1. rewrite Hfork.
  unfold bind, execv, perror, log, exit. cbn [Z.eqb]. rewrite Hok.
  by destruct (w_execv_ok w).
Qed.

(** X8: the sub-task.  In the child that [fork] creates, [worker_process]
    never reaches the drawing loop: the process becomes [/bin/echo] and
    ends with status 0, or, when [execv] fails, reports [execv failed] and
    exits with status 1.  It leaves the canvas alone either way. *)
Theorem subtask_child_execs (worker_id timeout : Z) (w w1 : World) :
  fork w = Ret 0 w1 ->
  worker_process worker_id timeout w =
    (if w_execv_ok w
     then Exited 0 (emit (Execv "/bin/echo"
                            ["/bin/echo"; "Painter subprocess drawing..."]%string) w1)
     else Exited 1 (emit (Perror "execv failed") w1)) /\
  shared_memory w1 = shared_memory w.
Proof.
  intros Hfork. split; [by apply worker_process_child|].
  by destruct (fork_world w w1 0 Hfork) as (_ & Hm & _).
Qed.

(** X9: a whole worker keeps the canvas within the alphabet: whatever
    [fork] answers and whatever the budget, a worker that starts on a
    reachable canvas ends on a reachable canvas. *)
Theorem worker_keeps_canvas_reachable (worker_id timeout : Z) (w : World) (c : canvas) :
  shared_memory w = Some c -> reachable c ->
  exists c', shared_memory (final_world (worker_process worker_id timeout w)) = Some c' /\
    reachable c'.
Proof.
  intros Hc Hreach.
  assert (Hfork : exists pid w1, fork w = Ret pid w1)
    by (unfold fork; destruct (w_forks w); by eexists _, _).
  destruct Hfork as (pid & w1 & Hfork).
  destruct (fork_world w w1 pid Hfork) as (_ & Hm1 & _).
  destruct (Z.lt_trichotomy pid 0) as [Hneg|[->|Hpos]].
  - rewrite (worker_process_fork_failed worker_id timeout pid w w1 Hfork Hneg).
    exists c. cbn [final_world shared_memory emit]. by rewrite Hm1.
  - rewrite (worker_process_child worker_id timeout w w1 Hfork).
    exists c. destruct (w_execv_ok w); cbn [final_world shared_memory emit];
      by rewrite Hm1.
  - destruct (worker_process_full worker_id timeout pid w w1 c Hfork Hpos Hc)
      as (w' & tr & c' & -> & _ & Hm & Hr & _).
    exists c'. split; [done|]. by apply Hr.
Qed.

Lemma signals_only_dead (child_pid : Z) (tr : list event) :
  signals_only 0 tr -> signals_only child_pid tr.
Proof.
  unfold signals_only. intros Hs. eapply Forall_impl; [exact Hs|].
  intros e He Hk. destruct (He Hk). lia.
Qed.

Lemma worker_turn_signals (worker_id child_pid : Z) (w : World) :
  (exists p w' tr,
     worker_turn worker_id child_pid w = Ret p w' /\
     w_trace w' = w_trace w ++ tr /\
     signals_only child_pid tr /\ (p = child_pid \/ p = 0)) \/
  (exists w', worker_turn worker_id child_pid w = Fault w' /\ w_trace w' = w_trace w).
Proof.
  destruct (draw_random_shape_run worker_id w) as (s & w1 & _ & _ & Hdraw).
  destruct (shared_memory w) as [c|].
  - left. destruct Hdraw as (w2 & text & Hdraw & _ & _ & _ & Htr).
    unfold worker_turn. unfold bind at 1. rewrite Hdraw.
    unfold bind at 1. unfold call_rand at 1.
    set (r1 := fst (rand (w_rng w2))). set (w3 := set_rng _ w2).
    destruct ((Z.rem r1 5 =? 0) && (child_pid >? 0)) eqn:Hkill.
    + apply andb_true_iff in Hkill as [_ Hpos].
      eexists 0, _, _. split; [reflexivity|].
      cbn [w_trace emit set_rng set_time w3]. rewrite Htr, <- !app_assoc.
      split; [reflexivity|]. split; [|by right].
      unfold signals_only. cbn [app].
      repeat (apply List.Forall_cons); try apply List.Forall_nil;
        cbn [is_kill]; intros [=].
      split; [done|lia].
    + eexists child_pid, _, _. split; [reflexivity|].
      cbn [w_trace emit set_rng set_time w3]. rewrite Htr, <- !app_assoc.
      split; [reflexivity|]. split; [|by left].
      unfold signals_only. cbn [app].
      repeat (apply List.Forall_cons); try apply List.Forall_nil;
        cbn [is_kill]; intros [=].
  - right. destruct Hdraw as (w' & Hdraw & Htr). exists w'.
    unfold worker_turn. unfold bind at 1. by rewrite Hdraw.
Qed.

Lemma worker_loop_signals (fuel : nat) (worker_id start timeout child_pid : Z) (w : World) :
  exists tr,
    w_trace (final_world (worker_loop fuel worker_id start timeout child_pid w))
    = w_trace w ++ tr /\
    signals_only child_pid tr.
Proof.
  revert child_pid w. induction fuel as [|fuel IH]; intros child_pid w;
    rewrite worker_loop_unfold; destruct (w_time w - start <? timeout);
    try (exists []; rewrite app_nil_r; split; [done|constructor]).
  unfold bind.
  destruct (worker_turn_signals worker_id child_pid w)
    as [(p & w1 & tr1 & -> & Htr1 & Hs1 & Hp)|(w1 & -> & Htr1)].
  - destruct (IH p w1) as (tr2 & Htr2 & Hs2).
    exists (tr1 ++ tr2). rewrite Htr2, Htr1, <- app_assoc. split; [done|].
    apply Forall_app. split; [done|].
    destruct Hp as [->| ->]; [done|by apply signals_only_dead].
  - exists []. cbn [final_world]. rewrite Htr1, app_nil_r. split; [done|constructor].
Qed.

(** X19: a worker signals nothing but its own sub-task.  Every signal in
    the trace of [worker_process] is [SIGTERM] to the pid that its [fork]
    returned, and that pid is positive: the worker never signals pid 0 or
    a pid that is not its child. *)
Theorem worker_signals_only_its_child (worker_id timeout : Z) (w : World) :
  exists tr,
    w_trace (final_world (worker_process worker_id timeout w)) = w_trace w ++ tr /\
    forall e : event, e ∈ tr -> is_kill e = true ->
      exists (pid : Z) (w1 : World),
        fork w = Ret pid w1 /\ 0 < pid /\ e = Kill pid SIGTERM.
Proof.
  assert (Hfork : exists pid w1, fork w = Ret pid w1)
    by (unfold fork; destruct (w_forks w); by eexists _, _).
  destruct Hfork as (pid & w1 & Hfork).
  destruct (fork_world w w1 pid Hfork) as (_ & _ & Htr1 & _).
  assert (Hno : forall tr, count is_kill tr = 0%nat ->
            forall e : event, e ∈ tr -> is_kill e = true ->
              exists (pid : Z) (w1 : World),
                fork w = Ret pid w1 /\ 0 < pid /\ e = Kill pid SIGTERM).
  { intros tr Hz e He Hk. apply count_zero_Forall in Hz.
    rewrite Forall_forall in Hz. rewrite (Hz e He) in Hk. done. }
  destruct (Z.lt_trichotomy pid 0) as [Hneg|[->|Hpos]].
  - rewrite (worker_process_fork_failed worker_id timeout pid w w1 Hfork Hneg).
    exists [Perror "fork failed"]. cbn [final_world w_trace emit]. rewrite Htr1.
    split; [done|]. by apply Hno.
  - rewrite (worker_process_child worker_id timeout w w1 Hfork).
    destruct (w_execv_ok w); eexists; cbn [final_world w_trace emit]; rewrite Htr1;
      (split; [reflexivity|]); by apply Hno.
  - unfold worker_process. unfold bind at 1. unfold time. unfold bind at 1.
    rewrite Hfork.
    destruct (Z.eqb_spec pid 0) as [|_]; [lia|].
    destruct (Z.gtb_spec pid 0) as [_|]; [|lia].
    destruct (worker_loop_signals (Z.to_nat timeout) worker_id (w_time w) timeout pid w1)
      as (tr & Htr & Hs).
    assert (Hgoal : forall tr', signals_only pid tr' ->
              forall e : event, e ∈ tr' -> is_kill e = true ->
                exists (pid0 : Z) (w0 : World),
                  Ret pid w1 = Ret pid0 w0 /\ 0 < pid0 /\ e = Kill pid0 SIGTERM).
    { intros tr' Hs' e He Hk. unfold signals_only in Hs'. rewrite Forall_forall in Hs'.
      destruct (Hs' e He Hk) as [-> _]. by exists pid, w1. }
    unfold bind at 1. unfold bind at 1.
    destruct (worker_loop _ _ _ _ _ w1) as [p w2|st w2|w2|w2];
      cbn [final_world] in Htr.
    2-4: exists tr; cbn [final_world]; rewrite Htr, Htr1; (split; [done|by apply Hgoal]).
    destruct (p >? 0).
    + unfold bind, wait, ret, exit.
      destruct (w_waits w2); exists (tr ++ [Wait]); cbn [final_world w_trace emit set_waits];
        rewrite Htr, Htr1, <- app_assoc; (split; [done|]);
        apply Hgoal, Forall_app; (split; [done|]);
        (apply List.Forall_cons; [intros [=]|apply List.Forall_nil]).
    + exists tr. cbn [bind ret exit final_world]. rewrite Htr, Htr1.
      split; [done|]. by apply Hgoal.
Qed.

End WorkerProps.

Section DrawProps.

Context `{RandSource}.

(** A call of [draw_random_shape] with its shape and its line. *)
Lemma draw_random_shape_line (worker_id : Z) (w : World) (c : canvas) :
  shared_memory w = Some c ->
  exists s w',
    draw_random_shape worker_id w = Ret tt w' /\
    shared_memory w' = Some (apply_shape s c) /\
    w_trace w' = w_trace w ++ [Stdout (drew_line worker_id s)] /\
    0 <= center_x s < Z.of_nat ART_WIDTH /\
    0 <= center_y s < Z.of_nat ART_HEIGHT /\
    2 <= radius s <= 5.
Proof.
  intros Hc.
  destruct (random_shape_run worker_id w)
    as (s & w1 & Hrun & (_ & _ & Hm & Htr) & Hx & Hy & Hr & _).
  exists s. unfold draw_random_shape, bind. rewrite Hrun. unfold with_canvas.
  rewrite Hm, Hc. eexists. split; [reflexivity|].
  cbn [shared_memory w_trace emit set_shared_memory]. by rewrite Htr.
Qed.

(** X10: the line a drawing prints is true of the canvas.  On a canvas of
    the declared dimensions [draw_random_shape] ends its output with
    [Painter <id> drew <symbol> at (<x>,<y>)], and afterwards the cell in
    column [x] of row [y] holds that symbol. *)
Theorem draw_random_shape_log_truthful (worker_id : Z) (w : World) (c : canvas) :
  shared_memory w = Some c -> canvas_wf c ->
  exists s w' c',
    draw_random_shape worker_id w = Ret tt w' /\
    shared_memory w' = Some c' /\
    last (w_trace w') = Some (Stdout (drew_line worker_id s)) /\
    cell c' (Z.to_nat (center_y s)) (Z.to_nat (center_x s)) = Some (color s).
Proof.
  intros Hc Hwf.
  destruct (draw_random_shape_line worker_id w c Hc)
    as (s & w' & Hrun & Hm & Htr & Hx & Hy & Hr).
  exists s, w', (apply_shape s c). split; [done|]. split; [done|].
  split; [rewrite Htr; apply last_snoc|].
  destruct (bounded_shape_no_overflow s Hx Hy Hr) as [Hr0 Hno].
  assert (Hy' : (Z.to_nat (center_y s) < ART_HEIGHT)%nat) by lia.
  assert (Hx' : (Z.to_nat (center_x s) < ART_WIDTH)%nat) by lia.
  rewrite apply_shape_cell.
  rewrite (proj2 (in_radius_within s _ _ Hr0 Hno Hy' Hx')).
  - apply Nat.ltb_lt in Hy' as Hyb. apply Nat.ltb_lt in Hx' as Hxb.
    rewrite Hyb, Hxb. cbn [andb].
    by destruct (wf_cell_is_Some c _ _ Hwf Hy' Hx') as [ch ->].
  - apply within_radius_squares; [done|]. rewrite !Z2Nat.id by lia. nia.
Qed.

(** X11: a drawing is local.  The cells that [draw_random_shape] changes
    lie within 5 columns and 5 rows of the center it prints: every cell
    farther away in either direction, and every cell of a canvas of any
    dimensions outside the grid, keeps its value. *)
Theorem draw_random_shape_local (worker_id : Z) (w : World) (c : canvas) :
  shared_memory w = Some c ->
  exists s w' c',
    draw_random_shape worker_id w = Ret tt w' /\
    shared_memory w' = Some c' /\
    last (w_trace w') = Some (Stdout (drew_line worker_id s)) /\
    forall y x : nat,
      5 < Z.abs (Z.of_nat x - center_x s) \/ 5 < Z.abs (Z.of_nat y - center_y s) ->
      cell c' y x = cell c y x.
Proof.
  intros Hc.
  destruct (draw_random_shape_line worker_id w c Hc)
    as (s & w' & Hrun & Hm & Htr & Hx & Hy & Hr).
  exists s, w', (apply_shape s c). split; [done|]. split; [done|].
  split; [rewrite Htr; apply last_snoc|].
  intros y x Hfar. rewrite apply_shape_cell.
  destruct (Nat.ltb_spec y ART_HEIGHT) as [Hy'|]; [|done].
  destruct (Nat.ltb_spec x ART_WIDTH) as [Hx'|]; [|done]. cbn [andb].
  destruct (bounded_shape_no_overflow s Hx Hy Hr) as [Hr0 Hno].
  rewrite (in_radius_exact s y x Hno Hy' Hx').
  destruct (Z.leb_spec ((Z.of_nat x - center_x s) ^ 2 + (Z.of_nat y - center_y s) ^ 2)
              (radius s * radius s)) as [Hle|]; [|done].
  exfalso. nia.
Qed.

(** X12: every drawing starts from a fresh seed.  The shape that
    [random_shape] gives depends on the worker id, the second and the
    nanosecond reading of the clock only, not on the state the generator
    was left in by earlier calls. *)
Theorem random_shape_reseeds (worker_id : Z) (w1 w2 : World) :
  w_time w1 = w_time w2 ->
  hd 0 (w_nsecs w1) = hd 0 (w_nsecs w2) ->
  exists s w1' w2',
    random_shape worker_id w1 = Ret s w1' /\
    random_shape worker_id w2 = Ret s w2'.
Proof.
  intros Ht Hns.
  unfold random_shape, bind, clock_gettime_nsec, time, call_srand, call_rand, ret.
  destruct (w_nsecs w1) as [|n1 rest1], (w_nsecs w2) as [|n2 rest2];
    cbn [hd] in Hns; subst;
    cbn [w_rng w_time w_nsecs set_rng set_nsecs]; rewrite Ht;
    by eexists _, _, _.
Qed.

End DrawProps.

(** *** The seeds of two workers *)

Lemma mod_pow2_bits_eq (a b : Z) :
  a mod 2 ^ 32 = b mod 2 ^ 32 ->
  forall k : Z, k < 32 -> Z.testbit a k = Z.testbit b k.
Proof.
  intros Heq k Hk.
  rewrite <- (Z.mod_pow2_bits_low a 32 k Hk), <- (Z.mod_pow2_bits_low b 32 k Hk).
  by rewrite Heq.
Qed.

(** X13: two workers that draw at the same instant seed the generator
    differently: for worker ids below 32768, equal seeds at the same
    second and nanosecond mean equal ids. *)
Theorem worker_seeds_differ (i j now nsec : Z) :
  0 <= i < 32768 -> 0 <= j < 32768 ->
  to_uint (shape_seed i now nsec) = to_uint (shape_seed j now nsec) ->
  i = j.
Proof.
  intros Hi Hj. unfold to_uint, shape_seed. intros Heq.
  rewrite !Z.shiftl_mul_pow2 in Heq by lia.
  rewrite !int_wrap_small in Heq by (unfold INT_MAX; lia).
  set (a := i * 2 ^ 16) in *. set (b := j * 2 ^ 16) in *.
  assert (Hxor : Z.lxor now a mod 2 ^ 32 = Z.lxor now b mod 2 ^ 32).
  { rewrite <- (Z.add_simpl_r (Z.lxor now a) nsec), <- (Z.add_simpl_r (Z.lxor now b) nsec).
    rewrite (Zminus_mod (Z.lxor now a + nsec)), (Zminus_mod (Z.lxor now b + nsec)).
    by rewrite Heq. }
  assert (Hab : a = b).
  { apply Z.bits_inj'. intros k Hk.
    destruct (Z.lt_ge_cases k 32) as [Hlt|Hge].
    - pose proof (mod_pow2_bits_eq _ _ Hxor k Hlt) as Hbit.
      rewrite !Z.lxor_spec in Hbit.
      by destruct (Z.testbit now k), (Z.testbit a k), (Z.testbit b k).
    - rewrite <- (Z.mod_small a (2 ^ 32)), <- (Z.mod_small b (2 ^ 32)) by (subst a b; lia).
      by rewrite !Z.mod_pow2_bits_high by lia. }
  subst a b. lia.
Qed.

Section MainProps.

Context `{RandSource}.

Ltac run_main :=
  lazy beta iota zeta delta [bind ret for_proc time call_srand shmget shmat
    call_clear_canvas with_canvas call_print_canvas printf perror log exit usleep sleep
    fork kill wait shmdt shmctl_rmid call_rand emit set_time set_rng set_forks set_waits
    set_shared_memory w_time w_nsecs w_rng w_forks w_execv_ok w_shmget w_waits
    shared_memory w_trace MAX_WORKERS Nat.eqb insert list_insert replicate fst snd].

(** A complete run of the parent: the segment is allocated and both
    launches give the parent a worker. *)
Lemma main_run (w : World) (p1 p2 : Z) (rest : list Z) :
  0 <= w_shmget w -> w_forks w = p1 :: p2 :: rest -> 0 < p1 -> 0 < p2 ->
  exists w' victim title launched0 launched1 killing reaped0 reaped1 final,
    main w = Ret 0 w' /\
    w_trace w' = w_trace w ++
      supervisor_events (print_canvas (clear_canvas zero_canvas)) victim (w_shmget w)
        title launched0 launched1 killing reaped0 reaped1 final /\
    (victim = p1 \/ victim = p2) /\
    w_time w' = w_time w + 15 /\
    shared_memory w' = None /\
    w_forks w' = rest.
Proof.
  destruct w as [t ns g fs ok id ws m tr]. cbn [w_shmget w_forks w_trace w_time].
  intros Hid -> Hp1 Hp2.
  pose proof (rand_range (srand (to_uint t))) as Hr.
  assert (Hvictim : forall r : Z, 0 <= r ->
            nth (Z.to_nat (Z.rem r (Z.of_nat 2))) [p1; p2] 0 = p1 \/
            nth (Z.to_nat (Z.rem r (Z.of_nat 2))) [p1; p2] 0 = p2).
  { intros r Hr0. pose proof (Z.rem_bound_pos r 2 Hr0 ltac:(lia)) as Hb.
    change (Z.of_nat 2) with 2.
    assert (Hcases : Z.rem r 2 = 0 \/ Z.rem r 2 = 1) by lia.
    destruct Hcases as [-> | ->]; [by left|by right]. }
  unfold main, launch_workers.
  run_main. destruct (Z.ltb_spec id 0) as [|_]; [lia|].
  run_main. destruct (Z.eqb_spec p1 0) as [|_]; [lia|].
  destruct (Z.gtb_spec p1 0) as [_|]; [|lia].
  run_main. destruct (Z.eqb_spec p2 0) as [|_]; [lia|].
  destruct (Z.gtb_spec p2 0) as [_|]; [|lia].
  run_main.
  destruct (rand (srand (to_uint t))) as [r g'] eqn:Hrand. cbn [fst] in Hr.
  destruct ws as [|r1 [|r2 ws]]; run_main;
    (eexists _, _, _, _, _, _, _, _, _; split; [reflexivity|]);
    cbn [w_trace w_time shared_memory w_forks]; rewrite <- !app_assoc;
    (split; [reflexivity|]); (split; [apply Hvictim; lia|]);
    (split; [lia|]); done.
Qed.

(** X14: a run in which the segment is allocated and both launches
    succeed returns 0 after the five rounds of three seconds, and its last
    two acts, and only those, detach the segment and mark it for removal. *)
Theorem main_completes (w : World) (p1 p2 : Z) (rest : list Z) :
  0 <= w_shmget w -> w_forks w = p1 :: p2 :: rest -> 0 < p1 -> 0 < p2 ->
  exists w' tr,
    main w = Ret 0 w' /\
    w_trace w' = w_trace w ++ tr ++ [Shmdt; Shmctl_rmid (w_shmget w)] /\
    count is_release tr = 0%nat /\
    count is_sleep tr = 5%nat /\
    w_time w' = w_time w + 15 /\
    shared_memory w' = None.
Proof.
  intros Hid Hforks Hp1 Hp2.
  destruct (main_run w p1 p2 rest Hid Hforks Hp1 Hp2)
    as (w' & victim & title & l0 & l1 & killing & r0 & r1 & final
        & Hrun & Htr & _ & Ht & Hm & _).
  exists w', (take 24 (supervisor_events (print_canvas (clear_canvas zero_canvas))
                         victim (w_shmget w) title l0 l1 killing r0 r1 final)).
  split; [done|]. rewrite Htr. split; [reflexivity|]. done.
Qed.

(** X15: in such a run the parent sends exactly one signal: [SIGTERM], to
    one of the two workers it launched, after the third sleep and before
    the fourth, and before any wait. *)
Theorem main_cancels_one_worker (w : World) (p1 p2 : Z) (rest : list Z) :
  0 <= w_shmget w -> w_forks w = p1 :: p2 :: rest -> 0 < p1 -> 0 < p2 ->
  exists w' pre post victim,
    main w = Ret 0 w' /\
    w_trace w' = w_trace w ++ pre ++ Kill victim SIGTERM :: post /\
    (victim = p1 \/ victim = p2) /\
    count is_kill pre = 0%nat /\ count is_kill post = 0%nat /\
    count is_sleep pre = 3%nat /\ count is_sleep post = 2%nat /\
    count is_wait pre = 0%nat.
Proof.
  intros Hid Hforks Hp1 Hp2.
  destruct (main_run w p1 p2 rest Hid Hforks Hp1 Hp2)
    as (w' & victim & title & l0 & l1 & killing & r0 & r1 & final
        & Hrun & Htr & Hvictim & _).
  set (events := supervisor_events (print_canvas (clear_canvas zero_canvas))
                   victim (w_shmget w) title l0 l1 killing r0 r1 final) in *.
  exists w', (take 13 events), (drop 14 events), victim.
  split; [done|]. rewrite Htr. split; [reflexivity|]. done.
Qed.

(** X16: in such a run the parent waits once for each of the
    [MAX_WORKERS] workers, and only after the last round: no sleep and no
    signal follows the first wait. *)
Theorem main_reaps_workers (w : World) (p1 p2 : Z) (rest : list Z) :
  0 <= w_shmget w -> w_forks w = p1 :: p2 :: rest -> 0 < p1 -> 0 < p2 ->
  exists w' pre post,
    main w = Ret 0 w' /\
    w_trace w' = w_trace w ++ pre ++ post /\
    count is_wait pre = 0%nat /\
    count is_wait post = MAX_WORKERS /\
    count is_sleep post = 0%nat /\ count is_kill post = 0%nat.
Proof.
  intros Hid Hforks Hp1 Hp2.
  destruct (main_run w p1 p2 rest Hid Hforks Hp1 Hp2)
    as (w' & victim & title & l0 & l1 & killing & r0 & r1 & final
        & Hrun & Htr & _).
  set (events := supervisor_events (print_canvas (clear_canvas zero_canvas))
                   victim (w_shmget w) title l0 l1 killing r0 r1 final) in *.
  exists w', (take 18 events), (drop 18 events).
  split; [done|]. rewrite Htr, take_drop. done.
Qed.


End MainProps.

(** * Further properties of the cell layer *)

(** After a schedule, a cell holds what was stored to it last. *)
Lemma run_last_write (l : list access) (c : canvas) (out : list ascii) (y x : nat) :
  cell (fst (run_accesses l (c, out))) y x =
  match last_write l y x with
  | Some v => (fun _ => v) <$> cell c y x
  | None => cell c y x
  end.
Proof.
  revert c out. induction l as [|a l IH]; intros c out; [done|].
  change (run_accesses (a :: l) (c, out)) with (run_accesses l (access_step (c, out) a)).
  cbn [last_write]. destruct a as [y' x' v|y' x']; cbn [access_step fst snd]; rewrite IH.
  - rewrite set_cell_cell.
    destruct (last_write l y x) as [v'|]; destruct (decide (y' = y /\ x' = x));
      try done. by destruct (cell c y x).
  - by destruct (last_write l y x).
Qed.

Lemma last_write_elem (l : list access) (y x : nat) (v : ascii) :
  last_write l y x = Some v -> Write y x v ∈ l.
Proof.
  induction l as [|a l IH]; [done|]. cbn [last_write].
  destruct (last_write l y x) as [v'|].
  - intros [= <-]. right. by apply IH.
  - destruct a as [y' x' v'|]; [|done].
    destruct (decide (y' = y /\ x' = x)) as [[-> ->]|]; [|done].
    intros [= ->]. by left.
Qed.

Lemma elem_last_write (l : list access) (y x : nat) (v : ascii) :
  Write y x v ∈ l -> is_Some (last_write l y x).
Proof.
  induction l as [|a l IH]; [by intros ?%elem_of_nil|].
  intros [<-|Hin]%elem_of_cons; cbn [last_write].
  - destruct (last_write l y x); [by eexists|].
    rewrite decide_True by done. by eexists.
  - destruct (IH Hin) as [v' ->]. by eexists.
Qed.

Lemma interleave_elem {A : Type} (l1 l2 l : list A) (a : A) :
  interleave l1 l2 l -> a ∈ l <-> a ∈ l1 \/ a ∈ l2.
Proof.
  induction 1 as [|b l1 l2 l Hi IH|b l1 l2 l Hi IH].
  - split; [by intros ?%elem_of_nil|by intros [?%elem_of_nil|?%elem_of_nil]].
  - rewrite !elem_of_cons, IH. tauto.
  - rewrite !elem_of_cons, IH. tauto.
Qed.

(** The drawing loop stores to every cell of the grid that passes the
    radius test. *)
Lemma draw_accesses_complete (s : Shape) (y x : nat) :
  (y < ART_HEIGHT)%nat -> (x < ART_WIDTH)%nat -> in_radius s y x = true ->
  Write y x (color s) ∈ draw_accesses s.
Proof.
  unfold draw_accesses. generalize ART_HEIGHT, ART_WIDTH. intros m n Hy Hx Hin.
  set (row := fun (y : nat) (k : nat) (acc : list access) =>
         for_upto k (fun x acc => if in_radius s y x then acc ++ [Write y x (color s)] else acc)
                  acc).
  assert (Hkeep : forall y' k acc a, a ∈ acc -> a ∈ row y' k acc).
  { intros y' k acc a Ha. induction k as [|k IH]; [done|].
    cbn [row for_upto] in *. destruct (in_radius s y' k); [|done].
    apply elem_of_app. by left. }
  assert (Hrow : forall k acc, (x < k)%nat -> Write y x (color s) ∈ row y k acc).
  { intros k acc Hk. induction k as [|k IH]; [lia|].
    cbn [row for_upto] in *. destruct (decide (x = k)) as [->|Hne].
    - rewrite Hin. apply elem_of_app. right. by left.
    - destruct (in_radius s y k); [apply elem_of_app; left|]; apply IH; lia. }
  change (Write y x (color s) ∈ for_upto m (fun y acc => row y n acc) []).
  clear Hin. induction m as [|m IH]; [lia|].
  cbn [for_upto]. destruct (decide (y = m)) as [->|Hne].
  - by apply Hrow.
  - apply Hkeep, IH. lia.
Qed.

(** X18: a race between two drawings leaves no garbage.  Under every
    schedule of the stores of two concurrent drawings, a cell of the grid
    that passes neither radius test keeps its value, one that passes the
    test of one shape only gets the symbol of that shape, and one that
    passes both gets one of the two symbols. *)
Theorem concurrent_draws_cell (s1 s2 : Shape) (c : canvas) (sched : list access)
    (y x : nat) :
  canvas_wf c ->
  interleave (draw_accesses s1) (draw_accesses s2) sched ->
  (y < ART_HEIGHT)%nat -> (x < ART_WIDTH)%nat ->
  match in_radius s1 y x, in_radius s2 y x with
  | false, false =>
      canvas_at (fst (run_accesses sched (c, []))) y x = canvas_at c y x
  | true, false =>
      canvas_at (fst (run_accesses sched (c, []))) y x = color s1
  | false, true =>
      canvas_at (fst (run_accesses sched (c, []))) y x = color s2
  | true, true =>
      canvas_at (fst (run_accesses sched (c, []))) y x = color s1 \/
      canvas_at (fst (run_accesses sched (c, []))) y x = color s2
  end.
Proof.
  intros Hwf Hi Hy Hx.
  destruct (wf_cell_is_Some c y x Hwf Hy Hx) as [ch Hch].
  assert (Hold : canvas_at c y x = ch) by (unfold canvas_at; by rewrite Hch).
  assert (Hfinal : canvas_at (fst (run_accesses sched (c, []))) y x
                   = match last_write sched y x with Some v => v | None => ch end).
  { unfold canvas_at. rewrite run_last_write, Hch. by destruct (last_write sched y x). }
  rewrite Hfinal, Hold. clear Hfinal Hold.
  assert (Hfrom : forall s v, Write y x v ∈ draw_accesses s ->
            v = color s /\ in_radius s y x = true).
  { intros s v Hin. pose proof (draw_accesses_writes s) as Hall.
    rewrite Forall_forall in Hall.
    destruct (Hall _ Hin) as (y' & x' & [= -> -> ->] & Hr & _). done. }
  destruct (last_write sched y x) as [v|] eqn:Hlast.
  - apply last_write_elem in Hlast.
    apply (interleave_elem _ _ _ _ Hi) in Hlast as [[-> H1]%Hfrom|[-> H2]%Hfrom].
    + rewrite H1. destruct (in_radius s2 y x); [by left|done].
    + rewrite H2. destruct (in_radius s1 y x); [by right|done].
  - assert (Hnone : forall s, Write y x (color s) ∈ sched -> False).
    { intros s Hin. apply elem_last_write in Hin as [v Hv]. congruence. }
    destruct (in_radius s1 y x) eqn:H1.
    { exfalso. apply (Hnone s1), (interleave_elem _ _ _ _ Hi). left.
      by apply draw_accesses_complete. }
    destruct (in_radius s2 y x) eqn:H2; [|done].
    exfalso. apply (Hnone s2), (interleave_elem _ _ _ _ Hi). right.
    by apply draw_accesses_complete.
Qed.

(** * Sample runs *)

Lemma demo_shape_no_overflow : no_overflow demo_shape.
Proof.
  split; [vm_compute; discriminate|].
  intros y x Hy Hx. unfold ART_HEIGHT, ART_WIDTH in *. unfold INT_MAX. simpl. nia.
Defined.

Lemma apply_shape_exact_witness :
  cell (apply_shape demo_shape blank_canvas) 5 12 = Some "@"%char /\
  cell (apply_shape demo_shape blank_canvas) 5 14 = cell blank_canvas 5 14.
Proof.
  assert (Hwf : canvas_wf blank_canvas)
    by (apply canvas_wfb_correct; vm_compute; reflexivity).
  assert (Hr : 0 <= radius demo_shape) by (simpl; lia).
  destruct (apply_shape_exact demo_shape blank_canvas Hwf Hr demo_shape_no_overflow)
    as [_ Hcells].
  split.
  - apply (Hcells 5%nat 12%nat).
    split; [unfold ART_HEIGHT; lia|]. split; [unfold ART_WIDTH; lia|].
    apply within_radius_squares; simpl; lia.
  - apply (Hcells 5%nat 14%nat). intros (_ & _ & Hin).
    apply within_radius_squares in Hin; simpl in *; lia.
Defined.

Lemma clear_then_snapshots_blank_witness :
  exists w', (call_clear_canvas ;;; snapshots 3) scribbled_world = Ret tt w' /\
    shared_memory w' = Some blank_canvas /\
    w_trace w' = w_trace scribbled_world ++ replicate 3 (Stdout blank_text).
Proof.
  apply (clear_then_snapshots_blank 3 scribbled_world (apply_shape demo_shape zero_canvas)).
  - reflexivity.
  - apply canvas_wfb_correct. vm_compute. reflexivity.
Defined.

Lemma drawn_world_run : draw_random_shape 1 demo_world = Ret tt drawn_world.
Proof. reflexivity. Defined.

Lemma reachable_alphabet_witness :
  canvas_wf drawn_canvas /\
  forall (y x : nat) (ch : ascii), cell drawn_canvas y x = Some ch ->
    ch = " "%char \/
    ch ∈ ["@"; ")"; "*"; "+"; "."; "$"; "("; "0"; "&"; "%"]%char.
Proof.
  apply reachable_alphabet.
  apply (reach_draw 1 demo_world drawn_world (clear_canvas zero_canvas) drawn_canvas).
  - apply reach_clear. apply canvas_wfb_correct. vm_compute. reflexivity.
  - reflexivity.
  - exact drawn_world_run.
  - vm_compute. reflexivity.
Defined.

Lemma worker_without_subtask_exits_witness :
  exists w', worker_process 0 8 no_fork_world = Exited 0 w' /\
    w_trace w' = w_trace no_fork_world ++ [Perror "fork failed"] /\
    shared_memory w' = shared_memory no_fork_world /\
    w_time w' = w_time no_fork_world.
Proof.
  apply (worker_without_subtask_exits 0 8 (-1) no_fork_world (set_forks [] no_fork_world)).
  - reflexivity.
  - lia.
Defined.

(** The claim C2 fails for the painter whose [fork] fails: it ends at
    once, not after its budget of 8 seconds. *)
Lemma worker_without_subtask_stops_early :
  fork no_fork_world = Ret (-1) (set_forks [] no_fork_world) /\
  ~ runs_full_budget 0 8 no_fork_world.
Proof.
  split; [reflexivity|]. intros (w' & Hrun & Ht).
  rewrite (worker_process_fork_failed 0 8 (-1) no_fork_world
             (set_forks [] no_fork_world) eq_refl) in Hrun by lia.
  injection Hrun as <-. vm_compute in Ht. by apply Ht.
Qed.

(** With its child started the same painter does run for 8 seconds. *)
Lemma worker_with_subtask_runs_sample : runs_full_budget 0 8 demo_world.
Proof.
  apply (worker_with_subtask_runs 0 8 4242 demo_world (set_forks [] demo_world)).
  - reflexivity.
  - lia.
  - by eexists.
Qed.

Lemma main_alloc_failure_faults_witness :
  exists w', main no_segment_world = Fault w' /\
    w_trace w' = w_trace no_segment_world /\
    w_forks w' = w_forks no_segment_world.
Proof. apply (main_alloc_failure_faults no_segment_world). simpl. lia. Defined.

Lemma main_launch_failure_exits_witness :
  exists w' tr, main second_fork_fails_world = Exited 1 w' /\
    w_trace w' = w_trace second_fork_fails_world ++ tr /\
    count is_kill tr = 0%nat /\ count is_wait tr = 0%nat /\
    last tr = Some (Perror "fork failed").
Proof.
  apply (main_launch_failure_exits second_fork_fails_world).
  - simpl. lia.
  - reflexivity.
Defined.

(** The claim C4 fails when the second [fork] fails: the run ends without
    a signal to worker 501, launched before. *)
Lemma launch_failure_leaves_workers :
  ~ launch_failure_cleans_up [501] second_fork_fails_world.
Proof.
  intros (status & w' & Hrun & _ & Hkill & _).
  destruct (Hkill 501) as [sig Hin]; [by left|].
  assert (Hnone : count is_kill (w_trace (final_world (main second_fork_fails_world))) = 0%nat)
    by (vm_compute; reflexivity).
  rewrite Hrun in Hnone. cbn [final_world] in Hnone.
  apply count_zero_Forall in Hnone. rewrite Forall_forall in Hnone.
  specialize (Hnone _ Hin). discriminate Hnone.
Qed.

Lemma interleaved_snapshot_cells_witness :
  fst (run_accesses (preempted_print demo_shape 260) (blank_canvas, []))
  = apply_shape demo_shape blank_canvas /\
  Forall2 (fun ch p => ch = canvas_at blank_canvas (fst p) (snd p) \/
                       ch = canvas_at (apply_shape demo_shape blank_canvas) (fst p) (snd p))
          (snd (run_accesses (preempted_print demo_shape 260) (blank_canvas, [])))
          grid_cells.
Proof.
  apply (interleaved_snapshot_cells demo_shape blank_canvas (preempted_print demo_shape 260)).
  - apply canvas_wfb_correct. vm_compute. reflexivity.
  - apply interleave_take_drop.
Defined.

(** The claim C5 fails for the printer preempted after 260 cells: what it
    prints is neither the canvas before the disc nor the canvas after. *)
Lemma torn_snapshot :
  interleave (draw_accesses demo_shape) print_accesses (preempted_print demo_shape 260) /\
  ~ snapshot_consistent demo_shape blank_canvas (preempted_print demo_shape 260).
Proof.
  split; [apply interleave_take_drop|].
  intros [Hold|Hnew].
  - apply (f_equal (fun l => nth 260 l "000"%char)) in Hold.
    vm_compute in Hold. discriminate Hold.
  - apply (f_equal (fun l => nth 210 l "000"%char)) in Hnew.
    vm_compute in Hnew. discriminate Hnew.
Qed.

(** Two runs of a painter: one never signals its child and waits for it,
    the other signals it once and does not wait. *)
Example worker_waits_sample :
  List.filter (fun e => is_kill e || is_wait e)
    (w_trace (final_world (worker_process 1 8 demo_world))) = [Wait].
Proof. vm_compute. reflexivity. Qed.

Example worker_kills_sample :
  List.filter (fun e => is_kill e || is_wait e)
    (w_trace (final_world (worker_process 1 8 later_world))) = [Kill 4242 SIGTERM].
Proof. vm_compute. reflexivity. Qed.

Example random_shape_sample :
  match random_shape 1 demo_world with Ret s _ => Some s | _ => None end
  = Some (mkShape 10 6 4 "(").
Proof. vm_compute. reflexivity. Qed.

Lemma apply_shape_twice_cell_witness :
  cell (apply_shape rival_shape (apply_shape demo_shape blank_canvas)) 5 12 =
  Some (if in_radius rival_shape 5 12 then color rival_shape
        else if in_radius demo_shape 5 12 then color demo_shape
        else canvas_at blank_canvas 5 12).
Proof.
  apply (apply_shape_twice_cell demo_shape rival_shape blank_canvas 5 12).
  - apply canvas_wfb_correct. vm_compute. reflexivity.
  - unfold ART_HEIGHT. lia.
  - unfold ART_WIDTH. lia.
Defined.

Lemma apply_shape_commute_witness :
  apply_shape demo_shape (apply_shape near_shape blank_canvas)
  = apply_shape near_shape (apply_shape demo_shape blank_canvas).
Proof.
  apply (apply_shape_commute demo_shape near_shape blank_canvas).
  intros y x _ _ _ _. reflexivity.
Defined.

Lemma print_canvas_inj_witness : clear_canvas zero_canvas = blank_canvas.
Proof.
  apply (print_canvas_inj (clear_canvas zero_canvas) blank_canvas).
  - apply canvas_wfb_correct. vm_compute. reflexivity.
  - apply canvas_wfb_correct. vm_compute. reflexivity.
  - vm_compute. reflexivity.
Defined.

Lemma worker_runs_its_budget_witness :
  exists w' tr,
    worker_process 1 8 demo_world = Exited 0 w' /\
    w_trace w' = w_trace demo_world ++ tr /\
    8 <= w_time w' - w_time demo_world <= 8 + 1 /\
    Z.of_nat (count is_sleep tr) <= 8 <= 2 * Z.of_nat (count is_sleep tr).
Proof.
  apply (worker_runs_its_budget 1 8 4242 demo_world (set_forks [] demo_world)
           (clear_canvas zero_canvas)).
  - reflexivity.
  - lia.
  - reflexivity.
  - lia.
Defined.

Lemma worker_cancels_or_joins_witness :
  exists w' tr,
    worker_process 1 8 later_world = Exited 0 w' /\
    w_trace w' = w_trace later_world ++ tr /\
    (count is_kill tr + count is_wait tr = 1)%nat.
Proof.
  apply (worker_cancels_or_joins 1 8 4242 later_world (set_forks [] later_world)
           (clear_canvas zero_canvas)).
  - reflexivity.
  - lia.
  - reflexivity.
Defined.

Lemma subtask_child_execs_witness :
  worker_process 1 8 subtask_world =
    (if w_execv_ok subtask_world
     then Exited 0 (emit (Execv "/bin/echo"
                            ["/bin/echo"; "Painter subprocess drawing..."]%string)
                         (set_forks [] subtask_world))
     else Exited 1 (emit (Perror "execv failed") (set_forks [] subtask_world))) /\
  shared_memory (set_forks [] subtask_world) = shared_memory subtask_world.
Proof.
  apply (subtask_child_execs 1 8 subtask_world (set_forks [] subtask_world)).
  reflexivity.
Defined.

Lemma worker_keeps_canvas_reachable_witness :
  exists c', shared_memory (final_world (worker_process 1 8 demo_world)) = Some c' /\
    reachable c'.
Proof.
  apply (worker_keeps_canvas_reachable 1 8 demo_world (clear_canvas zero_canvas)).
  - reflexivity.
  - apply reach_clear. apply canvas_wfb_correct. vm_compute. reflexivity.
Defined.

Lemma draw_random_shape_log_truthful_witness :
  exists s w' c',
    draw_random_shape 1 demo_world = Ret tt w' /\
    shared_memory w' = Some c' /\
    last (w_trace w') = Some (Stdout (drew_line 1 s)) /\
    cell c' (Z.to_nat (center_y s)) (Z.to_nat (center_x s)) = Some (color s).
Proof.
  apply (draw_random_shape_log_truthful 1 demo_world (clear_canvas zero_canvas)).
  - reflexivity.
  - apply canvas_wfb_correct. vm_compute. reflexivity.
Defined.

Lemma draw_random_shape_local_witness :
  exists s w' c',
    draw_random_shape 1 demo_world = Ret tt w' /\
    shared_memory w' = Some c' /\
    last (w_trace w') = Some (Stdout (drew_line 1 s)) /\
    forall y x : nat,
      5 < Z.abs (Z.of_nat x - center_x s) \/ 5 < Z.abs (Z.of_nat y - center_y s) ->
      cell c' y x = cell (clear_canvas zero_canvas) y x.
Proof.
  apply (draw_random_shape_local 1 demo_world (clear_canvas zero_canvas)).
  reflexivity.
Defined.

Lemma random_shape_reseeds_witness :
  exists s w1' w2',
    random_shape 1 demo_world = Ret s w1' /\
    random_shape 1 (set_rng (srand 12345) demo_world) = Ret s w2'.
Proof.
  apply (random_shape_reseeds 1 demo_world (set_rng (srand 12345) demo_world)).
  - reflexivity.
  - reflexivity.
Defined.

Lemma worker_seeds_differ_witness : 1 = 1.
Proof.
  apply (worker_seeds_differ 1 1 1000 123456).
  - lia.
  - lia.
  - reflexivity.
Defined.

Lemma main_completes_witness :
  exists w' tr,
    main parent_world = Ret 0 w' /\
    w_trace w' = w_trace parent_world ++ tr ++ [Shmdt; Shmctl_rmid (w_shmget parent_world)] /\
    count is_release tr = 0%nat /\
    count is_sleep tr = 5%nat /\
    w_time w' = w_time parent_world + 15 /\
    shared_memory w' = None.
Proof.
  apply (main_completes parent_world 501 502 []).
  - cbn [w_shmget parent_world]. lia.
  - reflexivity.
  - lia.
  - lia.
Defined.

Lemma main_cancels_one_worker_witness :
  exists w' pre post victim,
    main parent_world = Ret 0 w' /\
    w_trace w' = w_trace parent_world ++ pre ++ Kill victim SIGTERM :: post /\
    (victim = 501 \/ victim = 502) /\
    count is_kill pre = 0%nat /\ count is_kill post = 0%nat /\
    count is_sleep pre = 3%nat /\ count is_sleep post = 2%nat /\
    count is_wait pre = 0%nat.
Proof.
  apply (main_cancels_one_worker parent_world 501 502 []).
  - cbn [w_shmget parent_world]. lia.
  - reflexivity.
  - lia.
  - lia.
Defined.

Lemma main_reaps_workers_witness :
  exists w' pre post,
    main parent_world = Ret 0 w' /\
    w_trace w' = w_trace parent_world ++ pre ++ post /\
    count is_wait pre = 0%nat /\
    count is_wait post = MAX_WORKERS /\
    count is_sleep post = 0%nat /\ count is_kill post = 0%nat.
Proof.
  apply (main_reaps_workers parent_world 501 502 []).
  - cbn [w_shmget parent_world]. lia.
  - reflexivity.
  - lia.
  - lia.
Defined.


Lemma concurrent_draws_cell_witness :
  match in_radius demo_shape 5 12, in_radius rival_shape 5 12 with
  | false, false =>
      canvas_at (fst (run_accesses racing_draws (blank_canvas, []))) 5 12
      = canvas_at blank_canvas 5 12
  | true, false =>
      canvas_at (fst (run_accesses racing_draws (blank_canvas, []))) 5 12
      = color demo_shape
  | false, true =>
      canvas_at (fst (run_accesses racing_draws (blank_canvas, []))) 5 12
      = color rival_shape
  | true, true =>
      canvas_at (fst (run_accesses racing_draws (blank_canvas, []))) 5 12
      = color demo_shape \/
      canvas_at (fst (run_accesses racing_draws (blank_canvas, []))) 5 12
      = color rival_shape
  end.
Proof.
  apply (concurrent_draws_cell demo_shape rival_shape blank_canvas racing_draws 5 12).
  - apply canvas_wfb_correct. vm_compute. reflexivity.
  - apply interleave_take_drop.
  - unfold ART_HEIGHT. lia.
  - unfold ART_WIDTH. lia.
Defined.

(** In the race above the cell in column 12 of row 5 passes both tests and
    ends with the symbol of the drawing that finished last. *)
Example racing_draws_sample :
  in_radius demo_shape 5 12 = true /\ in_radius rival_shape 5 12 = true /\
  canvas_at (fst (run_accesses racing_draws (blank_canvas, []))) 5 12 = "*"%char.
Proof. vm_compute. auto. Qed.
